(** * mm_geo_test_logger: bulk geocoding test logger

    A shallow embedding of [mm_geo_test_logger.py]: the error classifier
    [classify_error], the single-address resolver [get_location] and the
    batch runner [run_bulk_geocode], followed by the properties of the
    report they produce.

    Python values are dynamically typed, so the embedding carries a small
    universe of Python values ([PyVal]) with Python's truthiness.  Code
    that can raise is written in a writer/error monad [Eff] whose log
    records every invocation of the external geocoder. *)

From Stdlib Require Import List String Ascii Bool Arith ZArith Lia.
From Stdlib Require Import Floats.SpecFloat DecimalString Permutation.
From Stdlib Require Import DecimalNat FinFun.
Import ListNotations.
Local Open Scope string_scope.

(** ** Python values *)

Module Py.

(** The values the program can observe: the scalars, lists and dicts a
    geocoder hands back (JSON-like data), and an opaque instance of some
    other class.  A dict is kept as an association list in insertion
    order; only string keys are recorded, since the program looks up
    string keys only. *)
#[warnings="-register-all"]
Inductive PyVal : Type :=
| PNone
| PBool (b : bool)
| PInt (z : Z)
| PFloat (f : spec_float)
| PStr (s : string)
| PList (l : list PyVal)
| PDict (d : list (string * PyVal))
| PObj (cls : string).

(** An exception raised by Python code: an instance of [Exception] or of
    a subclass, with its class name and the text [str(e)].  These are the
    exceptions a handler [except Exception] receives; the interpreter's
    own signals outside that class ([KeyboardInterrupt], [SystemExit])
    are not part of the model. *)
Record PyExc : Type := mkExc { exc_class : string; exc_str : string }.

(** [bool(v)] *)
Definition truthy (v : PyVal) : bool :=
  match v with
  | PNone => false
  | PBool b => b
  | PInt z => negb (Z.eqb z 0)
  | PFloat f => match f with S754_zero _ => false | _ => true end
  | PStr s => negb (String.eqb s "")
  | PList l => match l with [] => false | _ => true end
  | PDict d => match d with [] => false | _ => true end
  | PObj _ => true
  end.

(** [v is None] *)
Definition is_None (v : PyVal) : bool :=
  match v with PNone => true | _ => false end.

(** [type(v).__name__] *)
Definition type_name (v : PyVal) : string :=
  match v with
  | PNone => "NoneType"
  | PBool _ => "bool"
  | PInt _ => "int"
  | PFloat _ => "float"
  | PStr _ => "str"
  | PList _ => "list"
  | PDict _ => "dict"
  | PObj cls => cls
  end.

Definition isinstance_dict (v : PyVal) : bool :=
  match v with PDict _ => true | _ => false end.

Definition isinstance_list (v : PyVal) : bool :=
  match v with PList _ => true | _ => false end.

(** [d.get(k)] on a dict: the value stored under [k], else [None]. *)
Fixpoint dict_get (d : list (string * PyVal)) (k : string) : PyVal :=
  match d with
  | [] => PNone
  | (k', v) :: rest => if String.eqb k' k then v else dict_get rest k
  end.

Definition dict_keys (d : list (string * PyVal)) : list string := map fst d.

(** The entries of a value already known to be a dict. *)
Definition dict_items (v : PyVal) : list (string * PyVal) :=
  match v with PDict d => d | _ => [] end.

(** An optional message is [None] or a [str]; its text and truthiness. *)
Definition msg_text (m : option string) : string :=
  match m with
  | None => EmptyString
  | Some s => s
  end.

Definition msg_truthy (m : option string) : bool :=
  match m with
  | None => false
  | Some s => negb (String.eqb s "")
  end.

(** *** String operations *)

(** [needle in hay] *)
Fixpoint contains (needle hay : string) : bool :=
  String.prefix needle hay ||
  match hay with
  | EmptyString => false
  | String _ rest => contains needle rest
  end.

(** [s.split(sep)] for a one-character separator: never empty. *)
Fixpoint split (sep : ascii) (s : string) : list string :=
  match s with
  | EmptyString => [EmptyString]
  | String c rest =>
      if Ascii.eqb c sep then EmptyString :: split sep rest
      else match split sep rest with
           | [] => [String c EmptyString]
           | w :: ws => String c w :: ws
           end
  end.

(** [sep.join(l)] *)
Definition join (sep : string) (l : list string) : string := String.concat sep l.

(** [s.endswith(suffix)] *)
Definition endswith (s suffix : string) : bool :=
  let n := String.length s in
  let k := String.length suffix in
  (k <=? n)%nat && String.eqb (substring (n - k) k s) suffix.

Definition lower_ascii (c : ascii) : ascii :=
  let n := nat_of_ascii c in
  if ((65 <=? n) && (n <=? 90))%nat then ascii_of_nat (n + 32) else c.

(** [s.lower()], on the ASCII letters. *)
Fixpoint lower (s : string) : string :=
  match s with
  | EmptyString => EmptyString
  | String c rest => String (lower_ascii c) (lower rest)
  end.

(** [f"{n:04}"]: decimal, padded with zeros on the left to width 4. *)
Definition decimal (n : nat) : string := NilEmpty.string_of_uint (Nat.to_uint n).

Fixpoint zeros (k : nat) : string :=
  match k with
  | O => EmptyString
  | S k' => String "0" (zeros k')
  end.

Definition format_04 (n : nat) : string :=
  let d := decimal n in zeros (4 - String.length d) ++ d.

End Py.
Import Py.

(** ** Effects: exceptions and calls to the geocoder *)

(** An input cell of the [address] column: missing ([None], or the float
    [NaN] that pandas stores for an empty cell) or a text.  The column is
    a column of texts; numeric cells are not modelled. *)
Inductive Address : Type :=
| ANone
| ANaN
| AStr (s : string).

(** What one use of [MMGeoCoder(address).get_geolocation()] does: it
    hands back some value, or raises. *)
Inductive AdapterResult : Type :=
| Returns (v : PyVal)
| Raises (e : PyExc).

(** The external collaborator [mm_geo_coder.MMGeoCoder]. *)
Definition Adapter : Type := Address -> AdapterResult.

(** A computation that logs the addresses handed to the geocoder and
    either raises or yields a value. *)
Definition Eff (A : Type) : Type := (list Address * (PyExc + A))%type.

Definition ret {A} (x : A) : Eff A := ([], inr x).

Definition raise {A} (e : PyExc) : Eff A := ([], inl e).

Definition bind {A B} (m : Eff A) (k : A -> Eff B) : Eff B :=
  match m with
  | (log, inl e) => (log, inl e)
  | (log, inr x) => let '(log', r) := k x in ((log ++ log')%list, r)
  end.

(** [try: m  except Exception as e: h e] *)
Definition try_except {A} (m : Eff A) (h : PyExc -> Eff A) : Eff A :=
  match m with
  | (log, inl e) => let '(log', r) := h e in ((log ++ log')%list, r)
  | (log, inr x) => (log, inr x)
  end.

Definition invoke (geo : Adapter) (a : Address) : Eff PyVal :=
  ([a], match geo a with
        | Returns v => inr v
        | Raises e => inl e
        end).

Declare Scope eff_scope.
Delimit Scope eff_scope with eff.
Notation "x <- m ;; k" := (bind m (fun x => k))
  (at level 61, m at next level, right associativity) : eff_scope.
Local Open Scope eff_scope.

(** [v.get(k)]: defined on a dict; other classes have no such attribute. *)
Definition AttributeError_get (v : PyVal) : PyExc :=
  mkExc "AttributeError"
        ("'" ++ type_name v ++ "' object has no attribute 'get'").

Definition py_get (v : PyVal) (k : string) : Eff PyVal :=
  match v with
  | PDict d => ret (dict_get d k)
  | _ => raise (AttributeError_get v)
  end.

(** ** classify_error *)

Definition classify_error (result : PyVal) (exception_msg : option string) : string :=
  if msg_truthy exception_msg then
    let msg := msg_text exception_msg in
    if contains "Traceback" msg || contains "Error" msg then "Crash"
    else hd "" (split ":" msg)
  else if is_None result then "None returned"
  else if negb (isinstance_dict result) then "Wrong format"
  else if existsb (fun k => is_None (dict_get (dict_items result) k))
                  ["address"; "lat"; "log"; "pcode"]
  then "Missing fields"
  else "No error".

(** ** get_location *)

(** [not address] and [pd.isna(address)] on an input cell. *)
Definition address_truthy (a : Address) : bool :=
  match a with
  | ANone => false
  | ANaN => true
  | AStr s => negb (String.eqb s "")
  end.

Definition pd_isna (a : Address) : bool :=
  match a with
  | ANone | ANaN => true
  | AStr _ => false
  end.

(** [len(result) == 0] is reached for lists only. *)
Definition len_is_0 (v : PyVal) : bool :=
  match v with
  | PList [] => true
  | _ => false
  end.

(** [result[0]] on a non-empty list. *)
Definition first_item (v : PyVal) : Eff PyVal :=
  match v with
  | PList (x :: _) => ret x
  | _ => raise (mkExc "IndexError" "list index out of range")
  end.

(** The pair [get_location] hands back: a result and a message. *)
Definition Resolution : Type := (PyVal * option string)%type.

Definition get_location_try (geo : Adapter) (address : Address) : Eff Resolution :=
  if negb (address_truthy address) || pd_isna address then
    ret (PNone, Some "Empty input")
  else
    result <- invoke geo address ;;
    if negb (truthy result) || negb (isinstance_list result) || len_is_0 result then
      ret (PNone, Some "No result")
    else
      first <- first_item result ;;
      v_address <- py_get first "address" ;;
      v_pcode <- py_get first "pcode" ;;
      v_lat <- py_get first "latitude" ;;
      v_log <- py_get first "longitude" ;;
      ret (PDict [("address", v_address); ("pcode", v_pcode);
                  ("lat", v_lat); ("log", v_log)], None).

Definition get_location (geo : Adapter) (address : Address) : Eff Resolution :=
  try_except (get_location_try geo address)
             (fun e => ret (PNone, Some (exc_str e))).

(** ** The input table *)

(** [os.path.splitext] (POSIX): the extension starts at the last dot of
    the last path component, leading dots of that component apart. *)
Fixpoint rfind_from (c : ascii) (s : string) (i best : Z) : Z :=
  match s with
  | EmptyString => best
  | String x rest => rfind_from c rest (i + 1) (if Ascii.eqb x c then i else best)
  end.

(** [p.rfind(c)]: the last index of [c], or -1. *)
Definition rfind (c : ascii) (p : string) : Z := rfind_from c p 0 (-1).

Definition splitext (p : string) : string * string :=
  let sepIndex := rfind "/" p in
  let dotIndex := rfind "." p in
  if (dotIndex >? sepIndex)%Z then
    let filenameIndex := Z.to_nat (sepIndex + 1) in
    let dot := Z.to_nat dotIndex in
    let stem := list_ascii_of_string (substring filenameIndex (dot - filenameIndex) p) in
    if existsb (fun x => negb (Ascii.eqb x ".")) stem
    then (substring 0 dot p, substring dot (String.length p - dot) p)
    else (p, EmptyString)
  else (p, EmptyString).

(** A data frame, as far as the program reads it: the rows in order, each
    with its index label and its [address] cell. *)
Definition DataFrame : Type := list (nat * Address).

(** What the pandas readers deliver: the cells of the [address] column in
    file order ([None] when the table has no such column).  The readers
    label the rows 0, 1, 2, ... *)
Definition Table : Type := option (list Address).

Definition range_index (col : list Address) : DataFrame :=
  combine (seq 0 (List.length col)) col.

Definition Address_eqb (a b : Address) : bool :=
  match a, b with
  | ANone, ANone => true
  | ANaN, ANaN => true
  | AStr s, AStr t => String.eqb s t
  | _, _ => false
  end.

Definition mem (a : Address) (l : list Address) : bool := existsb (Address_eqb a) l.

(** [df.dropna(subset=['address'])]: the labels of the kept rows stay. *)
Definition dropna (df : DataFrame) : DataFrame :=
  filter (fun r => negb (pd_isna (snd r))) df.

(** [df.drop_duplicates(subset=['address'])]: the first row of every
    address is kept, with its label. *)
Fixpoint drop_duplicates_from (seen : list Address) (df : DataFrame) : DataFrame :=
  match df with
  | [] => []
  | (idx, a) :: rest =>
      if mem a seen then drop_duplicates_from seen rest
      else (idx, a) :: drop_duplicates_from (a :: seen) rest
  end.

Definition drop_duplicates (df : DataFrame) : DataFrame := drop_duplicates_from [] df.

(** ** run_bulk_geocode *)

Inductive Format : Type := Xlsx | Csv.

(** Everything outside the program: the file system, the pandas readers,
    the geocoder, the clock (the timestamp and the rounded duration of
    the n-th resolver call), and what becomes of creating a directory
    with a non-empty name ([os.makedirs(name, exist_ok=True)]) and of
    writing the report ([to_excel], [to_csv]): [None] when it succeeds,
    the exception when it fails. *)
Record World : Type := mkWorld {
  path_exists : string -> bool;
  read_csv : string -> PyExc + Table;
  read_excel : string -> PyExc + Table;
  geocoder : Adapter;
  clock_stamp : nat -> string;
  clock_duration : nat -> spec_float;
  makedirs : string -> option PyExc;
  write_report : string -> Format -> option PyExc
}.

Record Row : Type := mkRow {
  test_case_id : string;
  date_time : string;
  duration_sec : spec_float;
  input_address : Address;
  actual_returned_address : PyVal;
  latitude : PyVal;
  longitude : PyVal;
  pcode : PyVal;
  result_format_ok : string;
  missing_fields : string;
  error_type : string;
  exception_traceback : option string;
  test_outcome : string;
  notes : string
}.

(** [result.get(k) if result else None] *)
Definition get_if (result : PyVal) (k : string) : Eff PyVal :=
  if truthy result then py_get result k else ret PNone.

(** The names [k] of [fields], in order, for which [test k] holds. *)
Fixpoint select_fields (test : string -> Eff bool) (fields : list string)
  : Eff (list string) :=
  match fields with
  | [] => ret []
  | k :: rest =>
      b <- test k ;;
      more <- select_fields test rest ;;
      ret (if b then k :: more else more)
  end.

(** [result is None or result.get(field) is None] *)
Definition field_is_None (result : PyVal) (field : string) : Eff bool :=
  if is_None result then ret true
  else v <- py_get result field ;; ret (is_None v).

(** [not result.get(k)] *)
Definition field_is_falsy (result : PyVal) (k : string) : Eff bool :=
  v <- py_get result k ;; ret (negb (truthy v)).

(** The body of the loop over the rows, for the row at position [pos]
    with index label [idx]. *)
Definition log_row (w : World) (pos idx : nat) (address : Address) : Eff Row :=
  let test_case_id := "TC_" ++ format_04 (idx + 1) in
  let timestamp := clock_stamp w pos in
  r <- get_location (geocoder w) address ;;
  let '(result, error_msg) := r in
  let duration := clock_duration w pos in
  returned_address <- get_if result "address" ;;
  lat <- get_if result "lat" ;;
  log <- get_if result "log" ;;
  pcode <- get_if result "pcode" ;;
  missing_fields <- select_fields (field_is_None result)
                                  ["address"; "lat"; "log"; "pcode"] ;;
  let all_present := forallb truthy [lat; log; pcode; returned_address] in
  is_format_ok <-
    (if truthy result && all_present then ret "All fields present"
     else if truthy result then
       missing <- select_fields (field_is_falsy result)
                                ["lat"; "log"; "pcode"; "address"] ;;
       ret ("Missing: " ++ join ", " missing)
     else ret "Invalid or empty result") ;;
  let error_type := classify_error result error_msg in
  let test_outcome :=
    if truthy result && all_present && negb (msg_truthy error_msg)
    then "Sanity check: Pass"
    else if msg_truthy error_msg then "Fail"
    else "⚠️ Partial - Needs Review" in
  ret {| test_case_id := test_case_id;
         date_time := timestamp;
         duration_sec := duration;
         input_address := address;
         actual_returned_address := returned_address;
         latitude := lat;
         longitude := log;
         pcode := pcode;
         result_format_ok := is_format_ok;
         missing_fields :=
           match missing_fields with
           | [] => "None"
           | _ => join ", " missing_fields
           end;
         error_type := error_type;
         exception_traceback := error_msg;
         test_outcome := test_outcome;
         notes := "" |}.

(** The loop [for idx, row in df.iterrows()]: rows are appended to
    [log_rows] until the frame is exhausted or a row raises. *)
Fixpoint iter_rows (w : World) (pos : nat) (df : DataFrame) (log_rows : list Row)
  : list Address * list Row * option PyExc :=
  match df with
  | [] => ([], log_rows, None)
  | (idx, address) :: rest =>
      match log_row w pos idx address with
      | (c, inl e) => (c, log_rows, Some e)
      | (c, inr row) =>
          let '(c', rows, e) := iter_rows w (S pos) rest (log_rows ++ [row]) in
          ((c ++ c')%list, rows, e)
      end
  end.

(** What a run leaves behind: the rows built in memory, the addresses
    handed to the geocoder, the lines printed, the output directory it
    made sure of, the report saved (path, format, rows) and the exception
    that ended the run, if any. *)
Record Run : Type := mkRun {
  log_rows : list Row;
  geocoder_calls : list Address;
  printed : list string;
  ensured_dir : option string;
  saved : option (string * Format * list Row);
  raised : option PyExc
}.

Definition aborted (out : list string) (e : option PyExc) : Run :=
  {| log_rows := []; geocoder_calls := []; printed := out;
     ensured_dir := None; saved := None; raised := e |}.

Definition ValueError (msg : string) : PyExc := mkExc "ValueError" msg.

(** Reading the input: the checks on the path, then the pandas reader. *)
Inductive Loaded : Type :=
| NotFound (line : string)
| LoadRaised (e : PyExc)
| LoadedTable (t : Table).

Definition load_input (w : World) (input_path : string) : Loaded :=
  if negb (path_exists w input_path) then
    NotFound ("❌ Error: File not found — " ++ input_path)
  else
    let file_ext := lower (snd (splitext input_path)) in
    if String.eqb file_ext "" then
      LoadRaised (ValueError "❌ Input file must include an extension (.csv, .xlsx, or .xls) — e.g., addresses.csv")
    else if String.eqb file_ext ".csv" then
      match read_csv w input_path with
      | inl e => LoadRaised e
      | inr t => LoadedTable t
      end
    else if String.eqb file_ext ".xlsx" || String.eqb file_ext ".xls" then
      match read_excel w input_path with
      | inl e => LoadRaised e
      | inr t => LoadedTable t
      end
    else
      LoadRaised (ValueError ("❌ Unsupported input file format: " ++ file_ext
                              ++ ". Use .csv, .xlsx, or .xls.")).

(** The frame the loop runs over; a table without an [address] column
    makes [dropna] raise. *)
Definition clean (t : Table) : PyExc + DataFrame :=
  match t with
  | None => inl (mkExc "KeyError" "['address']")
  | Some col => inr (drop_duplicates (dropna (range_index col)))
  end.

Fixpoint slashes (k : nat) : string :=
  match k with
  | O => EmptyString
  | S k' => String "/" (slashes k')
  end.

(** [s.rstrip(c)] for one character. *)
Fixpoint rstrip (c : ascii) (s : string) : string :=
  match s with
  | EmptyString => EmptyString
  | String x rest =>
      let rest' := rstrip c rest in
      if String.eqb rest' "" && Ascii.eqb x c then EmptyString else String x rest'
  end.

(** [os.path.dirname] (POSIX): the path up to its last slash, without
    the slashes that end it, unless it is made of slashes only. *)
Definition dirname (p : string) : string :=
  let i := Z.to_nat (rfind "/" p + 1) in
  let head := substring 0 i p in
  if negb (String.eqb head "") && negb (String.eqb head (slashes (String.length head)))
  then rstrip "/" head
  else head.

(** [os.makedirs(name, exist_ok=True)]: the empty name is no directory;
    for any other name the outcome is the file system's. *)
Definition os_makedirs (w : World) (name : string) : option PyExc :=
  if String.eqb name "" then
    Some (mkExc "FileNotFoundError" "[Errno 2] No such file or directory: ''")
  else makedirs w name.

(** What the end of a run leaves: the directory made sure of, the lines
    printed, the report saved and the exception raised. *)
Record Saving : Type := mkSaving {
  saving_dir : option string;
  saving_printed : list string;
  saving_file : option (string * Format * list Row);
  saving_raised : option PyExc
}.

(** The end of the run: the directory of the output path is made sure
    of, then the rows go to an Excel or a CSV file, by the ending of the
    output path.  A failure of either step ends the run with its
    exception, before the confirmation is printed. *)
Definition save_report (w : World) (output_path : string) (rows : list Row) : Saving :=
  let output_dir := dirname output_path in
  match os_makedirs w output_dir with
  | Some e => mkSaving None [] None (Some e)
  | None =>
      if endswith output_path ".xlsx" then
        match write_report w output_path Xlsx with
        | Some e => mkSaving (Some output_dir) [] None (Some e)
        | None =>
            mkSaving (Some output_dir) ["✅ Excel report saved: " ++ output_path]
                     (Some (output_path, Xlsx, rows)) None
        end
      else if endswith output_path ".csv" then
        match write_report w output_path Csv with
        | Some e => mkSaving (Some output_dir) [] None (Some e)
        | None =>
            mkSaving (Some output_dir) ["✅ CSV report saved: " ++ output_path]
                     (Some (output_path, Csv, rows)) None
        end
      else
        mkSaving (Some output_dir) ["❌ Unsupported output format. Use .csv or .xlsx"]
                 None None
  end.

(** The locals [run_id], [input_file] and [output_file] of the source are
    computed and never used; they are left out. *)
Definition run_bulk_geocode (w : World) (input_path output_path : string) : Run :=
  match load_input w input_path with
  | NotFound line => aborted [line] None
  | LoadRaised e => aborted [] (Some e)
  | LoadedTable t =>
      match clean t with
      | inl e => aborted [] (Some e)
      | inr df =>
          match iter_rows w 0 df [] with
          | (c, rows, Some e) =>
              {| log_rows := rows; geocoder_calls := c; printed := [];
                 ensured_dir := None; saved := None; raised := Some e |}
          | (c, rows, None) =>
              let saving := save_report w output_path rows in
              {| log_rows := rows; geocoder_calls := c;
                 printed := saving_printed saving;
                 ensured_dir := saving_dir saving;
                 saved := saving_file saving;
                 raised := saving_raised saving |}
          end
      end
  end.

(** The rows of the report a run produces. *)
Definition report (w : World) (input_path output_path : string) : list Row :=
  log_rows (run_bulk_geocode w input_path output_path).

(** ** Sample worlds *)

Module Samples.

Definition f16_8 : spec_float := S754_finite false 4728779608739021 (-48).
Definition f96_1 : spec_float := S754_finite false 6762549648542925 (-46).

Definition candidate_X : PyVal :=
  PDict [("address", PStr "X"); ("pcode", PStr "11000");
         ("latitude", PFloat f16_8); ("longitude", PFloat f96_1)].

(** A geocoder that knows one place. *)
Definition geo_X : Adapter := fun _ => Returns (PList [candidate_X]).



Definition geo_empty : Adapter := fun _ => Returns (PList []).
Definition geo_none : Adapter := fun _ => Returns PNone.

Definition geo_raise (msg : string) : Adapter :=
  fun _ => Raises (mkExc "Exception" msg).

(** One CSV file [data/in.csv] holding the given address column; every
    directory can be made and every report written. *)
Definition world_of (geo : Adapter) (col : list Address) : World :=
  {| path_exists := fun p => String.eqb p "data/in.csv";
     read_csv := fun _ => inr (Some col);
     read_excel := fun _ => inr (Some col);
     geocoder := geo;
     clock_stamp := fun _ => "2025-01-01 00:00:00";
     clock_duration := fun _ => S754_zero false;
     makedirs := fun _ => None;
     write_report := fun _ _ => None |}.

(** The same, where every path names a file that exists. *)
Definition world_any (geo : Adapter) (col : list Address) : World :=
  {| path_exists := fun _ => true;
     read_csv := fun _ => inr (Some col);
     read_excel := fun _ => inr (Some col);
     geocoder := geo;
     clock_stamp := fun _ => "2025-01-01 00:00:00";
     clock_duration := fun _ => S754_zero false;
     makedirs := fun _ => None;
     write_report := fun _ _ => None |}.

(** The same as [world_of], on a disk where nothing can be written. *)
Definition world_read_only (geo : Adapter) (col : list Address) : World :=
  {| path_exists := fun p => String.eqb p "data/in.csv";
     read_csv := fun _ => inr (Some col);
     read_excel := fun _ => inr (Some col);
     geocoder := geo;
     clock_stamp := fun _ => "2025-01-01 00:00:00";
     clock_duration := fun _ => S754_zero false;
     makedirs := fun _ => None;
     write_report := fun _ _ => Some (mkExc "PermissionError" "[Errno 13] Permission denied") |}.

End Samples.

(** * Notions used in the statements *)

(** An address the resolver hands on to the geocoder. *)
Definition usable (a : Address) : bool := address_truthy a && negb (pd_isna a).

(** The dict [get_location] builds from the first candidate. *)
Definition project (d : list (string * PyVal)) : PyVal :=
  PDict [("address", dict_get d "address"); ("pcode", dict_get d "pcode");
         ("lat", dict_get d "latitude"); ("log", dict_get d "longitude")].

(** The geocoder's answer has no candidate to take: it is falsy, or not
    a list. *)
Definition no_candidates (v : PyVal) : bool :=
  negb (truthy v) || negb (isinstance_list v) || len_is_0 v.

(** The ways a call of [get_location] can go, with the geocoder calls
    made on the way. *)
Inductive resolves (geo : Adapter) (a : Address) : list Address -> Resolution -> Prop :=
| resolves_empty :
    usable a = false ->
    resolves geo a [] (PNone, Some "Empty input")
| resolves_raised e :
    usable a = true -> geo a = Raises e ->
    resolves geo a [a] (PNone, Some (exc_str e))
| resolves_no_result v :
    usable a = true -> geo a = Returns v -> no_candidates v = true ->
    resolves geo a [a] (PNone, Some "No result")
| resolves_not_dict x rest :
    usable a = true -> geo a = Returns (PList (x :: rest)) ->
    isinstance_dict x = false ->
    resolves geo a [a] (PNone, Some (exc_str (AttributeError_get x)))
| resolves_candidate d rest :
    usable a = true -> geo a = Returns (PList (PDict d :: rest)) ->
    resolves geo a [a] (project d, None).

(** The names, in order, of the entries whose value passes [test]. *)
Definition names_where (test : PyVal -> bool) (kvs : list (string * PyVal)) : list string :=
  map fst (filter (fun kv => test (snd kv)) kvs).

Definition falsy (v : PyVal) : bool := negb (truthy v).

Definition none_or_names (l : list string) : string :=
  match l with
  | [] => "None"
  | _ => join ", " l
  end.

Section RowOf.

Variables (w : World) (pos idx : nat) (address : Address).

(** The row written when the resolver found no candidate. *)
Definition absent_row (msg : option string) : Row :=
  {| test_case_id := "TC_" ++ format_04 (idx + 1);
     date_time := clock_stamp w pos;
     duration_sec := clock_duration w pos;
     input_address := address;
     actual_returned_address := PNone;
     latitude := PNone;
     longitude := PNone;
     pcode := PNone;
     result_format_ok := "Invalid or empty result";
     missing_fields := "address, lat, log, pcode";
     error_type := classify_error PNone msg;
     exception_traceback := msg;
     test_outcome := if msg_truthy msg then "Fail" else "⚠️ Partial - Needs Review";
     notes := "" |}.

(** The row written for a candidate with the given four fields. *)
Definition candidate_row (v_address v_pcode v_lat v_log : PyVal) : Row :=
  let complete := truthy v_lat && truthy v_log && truthy v_pcode && truthy v_address in
  {| test_case_id := "TC_" ++ format_04 (idx + 1);
     date_time := clock_stamp w pos;
     duration_sec := clock_duration w pos;
     input_address := address;
     actual_returned_address := v_address;
     latitude := v_lat;
     longitude := v_log;
     pcode := v_pcode;
     result_format_ok :=
       if complete then "All fields present"
       else "Missing: " ++ join ", " (names_where falsy
              [("lat", v_lat); ("log", v_log); ("pcode", v_pcode); ("address", v_address)]);
     missing_fields :=
       none_or_names (names_where is_None
         [("address", v_address); ("lat", v_lat); ("log", v_log); ("pcode", v_pcode)]);
     error_type :=
       if is_None v_address || is_None v_lat || is_None v_log || is_None v_pcode
       then "Missing fields" else "No error";
     exception_traceback := None;
     test_outcome :=
       if complete then "Sanity check: Pass" else "⚠️ Partial - Needs Review";
     notes := "" |}.

End RowOf.

(** The position of the first cell of [col] equal to [a] (the length of
    [col] when there is none). *)
Fixpoint first_index (a : Address) (col : list Address) : nat :=
  match col with
  | [] => 0
  | x :: rest => if Address_eqb x a then 0 else S (first_index a rest)
  end.

(** The frame that [clean] builds from the rows labelled [off], [off+1],
    ... once the addresses [seen] have been met. *)
Definition cleaned_from (seen : list Address) (off : nat) (col : list Address) : DataFrame :=
  drop_duplicates_from seen (dropna (combine (seq off (List.length col)) col)).

(** The rows the loop builds for a frame, with the geocoder calls made. *)
Inductive rows_of (w : World) : nat -> DataFrame -> list Address -> list Row -> Prop :=
| rows_of_nil pos : rows_of w pos [] [] []
| rows_of_cons pos idx a rest c row c' rows :
    log_row w pos idx a = (c, inr row) ->
    rows_of w (S pos) rest c' rows ->
    rows_of w pos ((idx, a) :: rest) (c ++ c') (row :: rows).

Definition file_ext (input_path : string) : string := lower (snd (splitext input_path)).

Definition supported_input_ext (ext : string) : bool :=
  String.eqb ext ".csv" || String.eqb ext ".xlsx" || String.eqb ext ".xls".

(** The test that sends [classify_error] into its "Wrong format" branch. *)
Definition wrong_format_branch (result : PyVal) (exception_msg : option string) : bool :=
  negb (msg_truthy exception_msg) && negb (is_None result) &&
  negb (isinstance_dict result).

(** * The command line *)

(** [os.path.join(a, b)] (POSIX): an absolute [b] replaces [a]. *)
Definition path_join (a b : string) : string :=
  if String.prefix "/" b then b
  else if String.eqb a "" || endswith a "/" then a ++ b
  else a ++ "/" ++ b.

Definition is_nil (l : list string) : bool :=
  match l with [] => true | _ => false end.

(** One turn of the loop of [os.path.normpath] over the components. *)
Definition normpath_step (initial_slashes : nat) (new_comps : list string) (comp : string)
  : list string :=
  if String.eqb comp "" || String.eqb comp "." then new_comps
  else if negb (String.eqb comp "..")
          || ((initial_slashes =? 0)%nat && is_nil new_comps)
          || (negb (is_nil new_comps) && String.eqb (last new_comps "") "..")
  then (new_comps ++ [comp])%list
  else removelast new_comps.

(** [os.path.normpath(path)] (POSIX). *)
Definition normpath (path : string) : string :=
  if String.eqb path "" then "."
  else
    let initial_slashes :=
      if String.prefix "/" path then
        if String.prefix "//" path && negb (String.prefix "///" path) then 2 else 1
      else 0 in
    let comps := fold_left (normpath_step initial_slashes) (split "/" path) [] in
    let p := slashes initial_slashes ++ join "/" comps in
    if String.eqb p "" then "." else p.

(** [os.path.abspath(path)] (POSIX), in the working directory [cwd]. *)
Definition abspath (cwd path : string) : string :=
  normpath (if String.prefix "/" path then path else path_join cwd path).

(** The script run with [--input arg_input --output arg_output] in the
    working directory [cwd]: the lines printed, and the run. *)
Definition main (w : World) (cwd arg_input arg_output : string) : list string * Run :=
  let input_path := abspath cwd (path_join "data" arg_input) in
  let output_path := abspath cwd (path_join "result" arg_output) in
  let run := run_bulk_geocode w input_path output_path in
  (("Input Path: " ++ input_path) :: ("Output Path: " ++ output_path) :: printed run,
   run).

(** A path component that is a plain name: not empty, not [.] or [..],
    and without a slash. *)
Definition plain_name (c : string) : bool :=
  negb (String.eqb c "") && negb (String.eqb c ".") && negb (String.eqb c "..")
  && negb (contains "/" c).

(** A component free of slashes. *)
Definition slash_free (c : string) : Prop := contains "/" c = false.

(** The absolute path with the given components. *)
Definition absolute (comps : list string) : string := "/" ++ join "/" comps.

(** * Properties *)

(** ** The resolver *)

Lemma usable_false (a : Address) :
  usable a = false -> negb (address_truthy a) || pd_isna a = true.
Proof.
  unfold usable. destruct (address_truthy a), (pd_isna a); simpl; congruence.
Qed.

Lemma usable_true (a : Address) :
  usable a = true -> negb (address_truthy a) || pd_isna a = false.
Proof.
  unfold usable. destruct (address_truthy a), (pd_isna a); simpl; congruence.
Qed.

Lemma usable_text (a : Address) :
  usable a = true <-> exists s, a = AStr s /\ s <> "".
Proof.
  split.
  - destruct a as [| |s]; try discriminate. unfold usable; simpl.
    rewrite andb_true_r, negb_true_iff, String.eqb_neq. eauto.
  - intros (s & -> & Hs). unfold usable; simpl.
    apply String.eqb_neq in Hs. now rewrite Hs.
Qed.

(** [get_location] always returns, in one of the five ways. *)
Lemma get_location_resolves (geo : Adapter) (a : Address) :
  exists c r, get_location geo a = (c, inr r) /\ resolves geo a c r.
Proof.
  unfold get_location, get_location_try.
  destruct (usable a) eqn:Hu.
  2:{ rewrite (usable_false _ Hu). simpl. eauto using resolves_empty. }
  rewrite (usable_true _ Hu). unfold invoke, bind at 1.
  destruct (geo a) as [v|e] eqn:Hg.
  2:{ simpl. eauto using resolves_raised. }
  fold (no_candidates v).
  destruct (no_candidates v) eqn:Hn.
  { simpl. eauto using resolves_no_result. }
  pose proof Hn as Hn'. unfold no_candidates in Hn'.
  apply orb_false_iff in Hn' as [Hn' Hlen].
  apply orb_false_iff in Hn' as [_ Hlist].
  destruct v as [| | | | |l| |]; try discriminate Hlist.
  destruct l as [|x rest]; try discriminate Hlen.
  destruct (isinstance_dict x) eqn:Hx.
  - destruct x as [| | | | | |d|]; try discriminate Hx.
    simpl. eexists _, _; split; [reflexivity|].
    now apply resolves_candidate with (rest := rest).
  - exists [a], (PNone, Some (exc_str (AttributeError_get x))). split.
    + destruct x; try discriminate Hx; reflexivity.
    + now apply resolves_not_dict with (rest := rest).
Qed.

(** The outcome of a resolution is a function of the geocoder's answer. *)
Lemma resolves_get_location (geo : Adapter) (a : Address) c r :
  resolves geo a c r -> get_location geo a = (c, inr r).
Proof.
  intros H. unfold get_location, get_location_try.
  destruct H as [Hu|e Hu Hg|v Hu Hg Hn|x rest Hu Hg Hx|d rest Hu Hg].
  - now rewrite (usable_false _ Hu).
  - rewrite (usable_true _ Hu). unfold invoke, bind. now rewrite Hg.
  - rewrite (usable_true _ Hu). unfold invoke, bind at 1. rewrite Hg.
    fold (no_candidates v). now rewrite Hn.
  - rewrite (usable_true _ Hu). unfold invoke, bind at 1. rewrite Hg.
    destruct x; try discriminate Hx; reflexivity.
  - rewrite (usable_true _ Hu). unfold invoke, bind at 1. now rewrite Hg.
Qed.

(** What is handed back is no result with a description, or a candidate
    without one. *)
Lemma resolves_shape (geo : Adapter) (a : Address) c result msg :
  resolves geo a c (result, msg) ->
  (result = PNone /\ exists m, msg = Some m) \/
  (exists d, result = project d /\ msg = None).
Proof. intros Hr. inversion Hr; subst; eauto. Qed.

(** ** One row of the report *)

Lemma log_row_absent (w : World) (pos idx : nat) (address : Address) c msg :
  get_location (geocoder w) address = (c, inr (PNone, msg)) ->
  log_row w pos idx address = (c, inr (absent_row w pos idx address msg)).
Proof.
  intros H. unfold log_row. rewrite H. cbn.
  rewrite app_nil_r. reflexivity.
Qed.

Lemma log_row_candidate (w : World) (pos idx : nat) (address : Address) c d :
  get_location (geocoder w) address = (c, inr (project d, None)) ->
  log_row w pos idx address =
    (c, inr (candidate_row w pos idx address
               (dict_get d "address") (dict_get d "pcode")
               (dict_get d "latitude") (dict_get d "longitude"))).
Proof.
  intros H. unfold log_row. rewrite H. unfold project.
  generalize (dict_get d "address") (dict_get d "pcode")
             (dict_get d "latitude") (dict_get d "longitude").
  intros va vp vlat vlog. unfold candidate_row, names_where, falsy.
  cbn.
  destruct (is_None va), (is_None vlat), (is_None vlog), (is_None vp);
    destruct (truthy vlat), (truthy vlog), (truthy vp), (truthy va);
    cbn; rewrite ?app_nil_r; reflexivity.
Qed.

(** Every pass through the loop body yields a row: nothing the resolver
    hands back makes the row-building code raise. *)
Lemma log_row_total (w : World) (pos idx : nat) (a : Address) :
  exists c r row,
    get_location (geocoder w) a = (c, inr r) /\
    resolves (geocoder w) a c r /\
    log_row w pos idx a = (c, inr row) /\
    (row = absent_row w pos idx a (snd r) /\ fst r = PNone
     \/ exists d, r = (project d, None) /\
          row = candidate_row w pos idx a (dict_get d "address") (dict_get d "pcode")
                              (dict_get d "latitude") (dict_get d "longitude")).
Proof.
  destruct (get_location_resolves (geocoder w) a) as (c & r & Hg & Hr).
  exists c, r.
  destruct Hr as [Hu|e Hu He|v Hu Hv Hn|x rest Hu Hv Hx|d rest Hu Hv];
    try (eexists; repeat split;
         [exact Hg | econstructor; eassumption
         | apply log_row_absent; exact Hg | left; split; reflexivity]).
  eexists; repeat split;
    [exact Hg | econstructor; eassumption
    | apply log_row_candidate; exact Hg | right; eauto].
Qed.

(** ** The cleaned frame *)

Lemma Address_eqb_eq (a b : Address) : Address_eqb a b = true <-> a = b.
Proof.
  destruct a, b; simpl; split; intros H;
    try reflexivity; try discriminate H.
  - apply String.eqb_eq in H. now subst.
  - injection H as ->. apply String.eqb_refl.
Qed.

Lemma Address_eq_dec (a b : Address) : {a = b} + {a <> b}.
Proof.
  destruct (Address_eqb a b) eqn:E.
  - left. now apply Address_eqb_eq.
  - right. intros H. apply Address_eqb_eq in H. congruence.
Defined.

Lemma mem_In (a : Address) (l : list Address) : mem a l = true <-> In a l.
Proof.
  unfold mem. rewrite existsb_exists. split.
  - intros (x & Hx & E). apply Address_eqb_eq in E. now subst.
  - intros H. exists a. split; [assumption | now apply Address_eqb_eq].
Qed.

Lemma mem_not_In (a : Address) (l : list Address) : mem a l = false <-> ~ In a l.
Proof.
  rewrite <- mem_In. destruct (mem a l); split; congruence.
Qed.

Lemma cleaned_from_cons seen off x rest :
  cleaned_from seen off (x :: rest) =
    if pd_isna x then cleaned_from seen (S off) rest
    else if mem x seen then cleaned_from seen (S off) rest
    else (off, x) :: cleaned_from (x :: seen) (S off) rest.
Proof.
  unfold cleaned_from, dropna. simpl.
  destruct (pd_isna x); simpl; reflexivity.
Qed.

Lemma cleaned_from_nil seen off : cleaned_from seen off [] = [].
Proof. reflexivity. Qed.

(** Every kept row carries the label of the first cell with its address,
    and that address is not missing and was not seen before. *)
Lemma cleaned_from_sound col : forall seen off idx a,
  In (idx, a) (cleaned_from seen off col) ->
  pd_isna a = false /\ ~ In a seen /\
  off <= idx /\ nth_error col (idx - off) = Some a /\
  first_index a col = idx - off.
Proof.
  induction col as [|x rest IH]; intros seen off idx a H.
  - contradiction.
  - rewrite cleaned_from_cons in H.
    assert (Hskip : In (idx, a) (cleaned_from seen (S off) rest) ->
                    x <> a ->
                    pd_isna a = false /\ ~ In a seen /\ off <= idx /\
                    nth_error (x :: rest) (idx - off) = Some a /\
                    first_index a (x :: rest) = idx - off).
    { intros Hin Hne. destruct (IH _ _ _ _ Hin) as (Hna & Hs & Hle & Hn & Hf).
      repeat split; try assumption; try lia.
      - replace (idx - off) with (S (idx - S off)) by lia. exact Hn.
      - simpl. destruct (Address_eqb x a) eqn:E.
        + apply Address_eqb_eq in E. contradiction.
        + rewrite Hf. lia. }
    destruct (pd_isna x) eqn:Hx.
    { apply Hskip; [assumption|]. intros ->.
      destruct (IH _ _ _ _ H) as (Hna & _). congruence. }
    destruct (mem x seen) eqn:Hm.
    { apply Hskip; [assumption|]. intros ->.
      destruct (IH _ _ _ _ H) as (_ & Hs & _). apply mem_In in Hm. contradiction. }
    destruct H as [H|H].
    + injection H as <- <-. apply mem_not_In in Hm.
      repeat split; try assumption; try lia.
      * now rewrite Nat.sub_diag.
      * simpl. rewrite (proj2 (Address_eqb_eq x x) eq_refl). lia.
    + destruct (IH _ _ _ _ H) as (Hna & Hs & Hle & Hn & Hf).
      assert (x <> a) by (intros ->; apply Hs; now left).
      repeat split; try assumption; try lia.
      * intros Hin. apply Hs. now right.
      * replace (idx - off) with (S (idx - S off)) by lia. exact Hn.
      * simpl. destruct (Address_eqb x a) eqn:E.
        -- apply Address_eqb_eq in E. contradiction.
        -- rewrite Hf. lia.
Qed.

(** Every address of the column that is not missing keeps a row. *)
Lemma cleaned_from_complete col : forall seen off a,
  In a col -> pd_isna a = false -> ~ In a seen ->
  In a (map snd (cleaned_from seen off col)).
Proof.
  induction col as [|x rest IH]; intros seen off a Hin Hna Hs.
  - contradiction.
  - rewrite cleaned_from_cons.
    destruct (Address_eq_dec x a) as [->|Hne].
    + rewrite Hna. apply mem_not_In in Hs. rewrite Hs. now left.
    + destruct Hin as [E|Hin]; [contradiction|].
      destruct (pd_isna x); [now apply IH|].
      destruct (mem x seen); [now apply IH|].
      right. apply IH; try assumption.
      intros [E|H]; [contradiction | now apply Hs].
Qed.

(** No address keeps two rows. *)
Lemma cleaned_from_NoDup col : forall seen off,
  NoDup (map snd (cleaned_from seen off col)).
Proof.
  induction col as [|x rest IH]; intros seen off.
  - constructor.
  - rewrite cleaned_from_cons.
    destruct (pd_isna x); [apply IH|].
    destruct (mem x seen); [apply IH|].
    simpl. constructor; [|apply IH].
    intros Hin. apply in_map_iff in Hin as ([i a] & E & Hin). simpl in E. subst a.
    apply cleaned_from_sound in Hin as (_ & Hs & _). apply Hs. now left.
Qed.

(** The labels of the kept rows grow along the frame. *)
Lemma cleaned_from_increasing col : forall seen off i j p q,
  i < j ->
  nth_error (cleaned_from seen off col) i = Some p ->
  nth_error (cleaned_from seen off col) j = Some q ->
  fst p < fst q.
Proof.
  induction col as [|x rest IH]; intros seen off i j p q Hij Hp Hq.
  - destruct i; discriminate Hp.
  - rewrite cleaned_from_cons in Hp, Hq.
    destruct (pd_isna x); [exact (IH _ _ _ _ _ _ Hij Hp Hq)|].
    destruct (mem x seen); [exact (IH _ _ _ _ _ _ Hij Hp Hq)|].
    destruct j as [|j]; [lia|]. simpl in Hq.
    destruct i as [|i].
    + injection Hp as <-. simpl.
      apply nth_error_In in Hq. destruct q as [iq aq].
      apply cleaned_from_sound in Hq as (_ & _ & Hle & _). simpl. lia.
    + simpl in Hp. apply (IH (x :: seen) (S off) i j p q); [lia | assumption | assumption].
Qed.

Lemma clean_cleaned_from (col : list Address) :
  clean (Some col) = inr (cleaned_from [] 0 col).
Proof. reflexivity. Qed.

(** ** The loop *)

(** The loop runs to the end of the frame and raises nothing. *)
Lemma iter_rows_total (w : World) (df : DataFrame) : forall pos acc,
  exists c rows,
    iter_rows w pos df acc = (c, (acc ++ rows)%list, None) /\ rows_of w pos df c rows.
Proof.
  induction df as [|[idx a] rest IH]; intros pos acc.
  - exists [], []. simpl. rewrite app_nil_r. split; [reflexivity | constructor].
  - destruct (log_row_total w pos idx a) as (c & r & row & _ & _ & Hrow & _).
    destruct (IH (S pos) (acc ++ [row])%list) as (c' & rows & Hit & Hrows).
    exists (c ++ c')%list, (row :: rows). split.
    + simpl. rewrite Hrow, Hit. rewrite <- app_assoc. reflexivity.
    + now constructor.
Qed.

Lemma rows_of_length w pos df c rows :
  rows_of w pos df c rows -> List.length rows = List.length df.
Proof. induction 1; simpl; congruence. Qed.

(** The k-th row of the report is built from the k-th row of the frame. *)
Lemma rows_of_nth w pos df c rows :
  rows_of w pos df c rows ->
  forall k row, nth_error rows k = Some row ->
  exists idx a ck, nth_error df k = Some (idx, a) /\
                   log_row w (pos + k) idx a = (ck, inr row).
Proof.
  induction 1 as [|pos idx a rest c row c' rows Hrow Hrest IH]; intros k r Hk.
  - destruct k; discriminate Hk.
  - destruct k as [|k]; simpl in Hk.
    + injection Hk as <-. exists idx, a, c. rewrite Nat.add_0_r. now split.
    + destruct (IH _ _ Hk) as (idx' & a' & ck & Hn & Hl).
      exists idx', a', ck. split; [exact Hn|].
      replace (pos + S k) with (S pos + k) by lia. exact Hl.
Qed.

(** What a row says about the frame row it was built from. *)
Lemma log_row_address w pos idx a c row :
  log_row w pos idx a = (c, inr row) ->
  input_address row = a /\ test_case_id row = "TC_" ++ format_04 (idx + 1).
Proof.
  intros H.
  destruct (log_row_total w pos idx a) as (c' & r & row' & _ & _ & Hrow & Hcase).
  rewrite Hrow in H. injection H as _ <-.
  destruct Hcase as [[-> _]|(d & _ & ->)]; split; reflexivity.
Qed.

Lemma rows_of_addresses w pos df c rows :
  rows_of w pos df c rows -> map input_address rows = map snd df.
Proof.
  induction 1 as [|pos idx a rest c row c' rows Hrow Hrest IH]; simpl.
  - reflexivity.
  - apply log_row_address in Hrow as [-> _]. now rewrite IH.
Qed.

Lemma rows_of_ids w pos df c rows :
  rows_of w pos df c rows ->
  map test_case_id rows = map (fun r => "TC_" ++ format_04 (fst r + 1)) df.
Proof.
  induction 1 as [|pos idx a rest c row c' rows Hrow Hrest IH]; simpl.
  - reflexivity.
  - apply log_row_address in Hrow as [_ ->]. now rewrite IH.
Qed.

(** A run over a table that was loaded goes through the whole cleaned
    frame without an exception, and ends with the saving of the rows it
    built. *)
Lemma run_loaded (w : World) (input_path output_path : string) (col : list Address) :
  load_input w input_path = LoadedTable (Some col) ->
  exists c rows,
    rows_of w 0 (cleaned_from [] 0 col) c rows /\
    run_bulk_geocode w input_path output_path =
      {| log_rows := rows; geocoder_calls := c;
         printed := saving_printed (save_report w output_path rows);
         ensured_dir := saving_dir (save_report w output_path rows);
         saved := saving_file (save_report w output_path rows);
         raised := saving_raised (save_report w output_path rows) |}.
Proof.
  intros Hload. unfold run_bulk_geocode. rewrite Hload, clean_cleaned_from.
  destruct (iter_rows_total w (cleaned_from [] 0 col) 0 []) as (c & rows & Hit & Hrows).
  exists c, rows. split; [exact Hrows|].
  rewrite Hit. reflexivity.
Qed.

(** The cases of the saving. *)
Lemma save_report_cases (w : World) (output_path : string) (rows : list Row) :
  let saving := save_report w output_path rows in
  (exists e, os_makedirs w (dirname output_path) = Some e /\
     saving = mkSaving None [] None (Some e)) \/
  (os_makedirs w (dirname output_path) = None /\
   ((endswith output_path ".xlsx" = true /\
     ((exists e, write_report w output_path Xlsx = Some e /\
         saving = mkSaving (Some (dirname output_path)) [] None (Some e)) \/
      (write_report w output_path Xlsx = None /\
       saving = mkSaving (Some (dirname output_path))
                         ["✅ Excel report saved: " ++ output_path]
                         (Some (output_path, Xlsx, rows)) None))) \/
    (endswith output_path ".xlsx" = false /\ endswith output_path ".csv" = true /\
     ((exists e, write_report w output_path Csv = Some e /\
         saving = mkSaving (Some (dirname output_path)) [] None (Some e)) \/
      (write_report w output_path Csv = None /\
       saving = mkSaving (Some (dirname output_path))
                         ["✅ CSV report saved: " ++ output_path]
                         (Some (output_path, Csv, rows)) None))) \/
    (endswith output_path ".xlsx" = false /\ endswith output_path ".csv" = false /\
     saving = mkSaving (Some (dirname output_path))
                       ["❌ Unsupported output format. Use .csv or .xlsx"]
                       None None))).
Proof.
  intros saving. subst saving. unfold save_report.
  destruct (os_makedirs w (dirname output_path)) as [e|]; [left; eauto|].
  right. split; [reflexivity|].
  destruct (endswith output_path ".xlsx").
  - left. split; [reflexivity|].
    destruct (write_report w output_path Xlsx) as [e|]; [left; eauto | right; auto].
  - right. destruct (endswith output_path ".csv").
    + left. split; [reflexivity|]. split; [reflexivity|].
      destruct (write_report w output_path Csv) as [e|]; [left; eauto | right; auto].
    + right. auto.
Qed.

Lemma save_report_rows (w : World) (output_path : string) (rows : list Row) p f rs :
  saving_file (save_report w output_path rows) = Some (p, f, rs) ->
  p = output_path /\ rs = rows.
Proof.
  intros H. pose proof (save_report_cases w output_path rows) as Hc. cbv zeta in Hc.
  destruct Hc as [(e & _ & Hs)
                 |(_ & [(_ & [(e & _ & Hs)|(_ & Hs)])
                       |[(_ & _ & [(e & _ & Hs)|(_ & Hs)])|(_ & _ & Hs)]])];
    rewrite Hs in H; simpl in H; try discriminate H;
    injection H as <- _ <-; split; reflexivity.
Qed.

(** The saving raises only what making the directory or writing the
    file raises, and then saves nothing. *)
Lemma save_report_raised (w : World) (output_path : string) (rows : list Row) :
  let saving := save_report w output_path rows in
  (saving_raised saving = None \/
   exists e, saving_raised saving = Some e /\ saving_file saving = None /\
     (os_makedirs w (dirname output_path) = Some e \/
      exists f, write_report w output_path f = Some e)) /\
  (os_makedirs w (dirname output_path) = None ->
   (forall f, write_report w output_path f = None) ->
   saving_raised saving = None).
Proof.
  intros saving. subst saving.
  pose proof (save_report_cases w output_path rows) as Hc. cbv zeta in Hc.
  destruct Hc as [(e & Hm & Hs)
                 |(Hm & [(_ & [(e & Hw & Hs)|(_ & Hs)])
                        |[(_ & _ & [(e & Hw & Hs)|(_ & Hs)])|(_ & _ & Hs)]])];
    rewrite Hs; simpl; split;
    try (left; reflexivity); try (intros _ _; reflexivity).
  - right. exists e. auto.
  - intros Hm'. congruence.
  - right. exists e. eauto.
  - intros _ Hall. rewrite Hall in Hw. discriminate Hw.
  - right. exists e. eauto.
  - intros _ Hall. rewrite Hall in Hw. discriminate Hw.
Qed.

(** Every row of a report was built by the loop body from its own input
    address. *)
Lemma report_row_origin (w : World) (input_path output_path : string) (row : Row) :
  In row (report w input_path output_path) ->
  exists pos idx c,
    log_row w pos idx (input_address row) = (c, inr row).
Proof.
  unfold report, run_bulk_geocode. intros Hin.
  destruct (load_input w input_path) as [line|e|t]; try contradiction.
  destruct t as [col|]; [|contradiction].
  rewrite clean_cleaned_from in Hin.
  destruct (iter_rows_total w (cleaned_from [] 0 col) 0 []) as (c & rows & Hit & Hrows).
  rewrite Hit in Hin. simpl in Hin.
  assert (Hin' : In row rows) by exact Hin.
  apply In_nth_error in Hin' as (k & Hk).
  destruct (rows_of_nth _ _ _ _ _ Hrows _ _ Hk) as (idx & a & ck & _ & Hl).
  pose proof (log_row_address _ _ _ _ _ _ Hl) as [Ha _].
  exists (0 + k), idx, ck. now rewrite Ha.
Qed.

(** ** The report and the input table *)

(** C1. For every input table that loads, the report has exactly one row
    per distinct address of the column that is not missing: no address
    has two rows, every such address has a row, the rows follow the order
    in which the addresses first occur in the column, and their number is
    the number of distinct non-missing addresses.  When the column holds
    no empty text (the pandas readers deliver an empty cell as NaN),
    every row is that of a non-empty text.  The loop that builds the rows
    raises nothing: such a run can only end with an exception of making
    the output directory or of writing the file, after all the rows are
    built, and ends with none when both succeed.  The report that is
    saved holds these rows. *)
Theorem report_one_row_per_address
    (w : World) (input_path output_path : string) (col : list Address) :
  load_input w input_path = LoadedTable (Some col) ->
  let run := run_bulk_geocode w input_path output_path in
  let addresses := map input_address (log_rows run) in
  ((raised run = None \/
    exists e, raised run = Some e /\ saved run = None /\
      (os_makedirs w (dirname output_path) = Some e \/
       exists f, write_report w output_path f = Some e)) /\
   (os_makedirs w (dirname output_path) = None ->
    (forall f, write_report w output_path f = None) ->
    raised run = None)) /\
  NoDup addresses /\
  (forall a, In a addresses <-> In a col /\ pd_isna a = false) /\
  (forall i j a b, i < j ->
     nth_error addresses i = Some a -> nth_error addresses j = Some b ->
     first_index a col < first_index b col) /\
  List.length (log_rows run) =
    List.length (nodup Address_eq_dec (filter (fun a => negb (pd_isna a)) col)) /\
  (~ In (AStr "") col ->
     forall a, In a addresses -> exists s, a = AStr s /\ s <> "") /\
  (forall p f rows, saved run = Some (p, f, rows) -> rows = log_rows run).
Proof.
  intros Hload run addresses.
  destruct (run_loaded w input_path output_path col Hload) as (c & rows & Hrows & Hrun).
  subst addresses run. rewrite Hrun. simpl.
  rewrite (rows_of_addresses _ _ _ _ _ Hrows).
  assert (Hnodup : NoDup (map snd (cleaned_from [] 0 col)))
    by apply cleaned_from_NoDup.
  assert (Hmem : forall a, In a (map snd (cleaned_from [] 0 col)) <->
                           In a col /\ pd_isna a = false).
  { intros a. split.
    - intros Hin. apply in_map_iff in Hin as ([i a'] & E & Hin). simpl in E. subst a'.
      apply cleaned_from_sound in Hin as (Hna & _ & _ & Hn & _).
      split; [eapply nth_error_In; exact Hn | exact Hna].
    - intros [Hin Hna]. apply cleaned_from_complete; auto. }
  split; [exact (save_report_raised w output_path rows)|].
  split; [exact Hnodup|]. split; [exact Hmem|].
  split; [|split; [|split]].
  - intros i j a b Hij Ha Hb.
    rewrite nth_error_map in Ha, Hb.
    destruct (nth_error (cleaned_from [] 0 col) i) as [[ia a']|] eqn:Hi; [|discriminate].
    destruct (nth_error (cleaned_from [] 0 col) j) as [[ib b']|] eqn:Hj; [|discriminate].
    simpl in Ha, Hb. injection Ha as ->. injection Hb as ->.
    pose proof (cleaned_from_increasing _ _ _ _ _ _ _ Hij Hi Hj) as Hlt. simpl in Hlt.
    apply nth_error_In in Hi, Hj.
    apply cleaned_from_sound in Hi as (_ & _ & _ & _ & Hfa).
    apply cleaned_from_sound in Hj as (_ & _ & _ & _ & Hfb).
    lia.
  - rewrite <- (length_map input_address), (rows_of_addresses _ _ _ _ _ Hrows).
    apply Permutation_length, NoDup_Permutation.
    + exact Hnodup.
    + apply NoDup_nodup.
    + intros a. rewrite Hmem, nodup_In, filter_In, negb_true_iff. reflexivity.
  - intros Hempty a Ha. apply Hmem in Ha as [Hin Hna].
    destruct a as [| |s]; try discriminate Hna.
    exists s. split; [reflexivity|]. intros ->. contradiction.
  - intros p f rs Hs. now apply save_report_rows in Hs.
Qed.

Lemma report_one_row_per_address_witness :
  let w := Samples.world_of Samples.geo_X [AStr "123 Main St"; AStr "123 Main St"; ANaN] in
  let run := run_bulk_geocode w "data/in.csv" "result/out.csv" in
  let addresses := map input_address (log_rows run) in
  load_input w "data/in.csv" =
    LoadedTable (Some [AStr "123 Main St"; AStr "123 Main St"; ANaN]) /\
  addresses = [AStr "123 Main St"] /\
  raised run = None /\
  NoDup addresses /\
  List.length (log_rows run) = 1 /\
  exists s, AStr "123 Main St" = AStr s /\ s <> "".
Proof.
  pose proof (report_one_row_per_address
                (Samples.world_of Samples.geo_X
                   [AStr "123 Main St"; AStr "123 Main St"; ANaN])
                "data/in.csv" "result/out.csv"
                [AStr "123 Main St"; AStr "123 Main St"; ANaN] eq_refl)
    as ((_ & Hr) & Hn & _ & _ & Hlen & Htext & _).
  split; [reflexivity|]. split; [reflexivity|].
  split; [exact (Hr eq_refl (fun _ => eq_refl))|].
  split; [exact Hn|]. split; [exact Hlen|].
  apply Htext.
  - intros [H|[H|[H|[]]]]; discriminate H.
  - now left.
Defined.

(** ** Test identifiers *)

(** The identifier of a row is made from the position its address first
    has in the input column, counted from 1. *)
Lemma test_case_id_input_position
    (w : World) (input_path output_path : string) (col : list Address) (row : Row) :
  load_input w input_path = LoadedTable (Some col) ->
  In row (report w input_path output_path) ->
  test_case_id row = "TC_" ++ format_04 (first_index (input_address row) col + 1).
Proof.
  intros Hload Hin. unfold report in Hin.
  destruct (run_loaded w input_path output_path col Hload) as (c & rows & Hrows & Hrun).
  rewrite Hrun in Hin. simpl in Hin.
  apply In_nth_error in Hin as (k & Hk).
  destruct (rows_of_nth _ _ _ _ _ Hrows _ _ Hk) as (idx & a & ck & Hn & Hl).
  apply log_row_address in Hl as [-> ->].
  apply nth_error_In, cleaned_from_sound in Hn as (_ & _ & _ & _ & ->).
  now rewrite Nat.sub_0_r.
Qed.

(** C2. On the column A, A, B the second surviving address B is given the
    identifier TC_0003, the number of its row in the input, where
    numbering the surviving rows would give TC_0002. *)
Theorem test_case_id_skips_dropped_rows :
  let w := Samples.world_of Samples.geo_X [AStr "A"; AStr "A"; AStr "B"] in
  let rows := report w "data/in.csv" "result/out.csv" in
  map input_address rows = [AStr "A"; AStr "B"] /\
  map test_case_id rows = ["TC_0001"; "TC_0003"].
Proof. split; reflexivity. Qed.

(** ** Classification of failures *)

Lemma contains_char_cons (c ch : ascii) (s : string) :
  contains (String c "") (String ch s) = Ascii.eqb ch c || contains (String c "") s.
Proof.
  change (contains (String c "") (String ch s))
    with (String.prefix (String c "") (String ch s) || contains (String c "") s).
  f_equal. simpl. destruct (ascii_dec c ch) as [->|Hne].
  - rewrite Ascii.eqb_refl. now destruct s.
  - symmetry. apply Ascii.eqb_neq. congruence.
Qed.

(** The text of [s] before its first colon, all of [s] when it has none. *)
Lemma split_colon_prefix (label rest : string) :
  contains ":" label = false ->
  hd "" (split ":" (label ++ ":" ++ rest)) = label.
Proof.
  induction label as [|ch label IH]; intros Hc.
  - reflexivity.
  - rewrite contains_char_cons in Hc. apply orb_false_iff in Hc as [E Hl].
    specialize (IH Hl). simpl in IH |- *. rewrite E.
    destruct (split ":" (label ++ String ":" rest)) as [|x xs]; simpl in IH |- *;
      now rewrite <- IH.
Qed.

Lemma split_no_colon (s : string) :
  contains ":" s = false -> split ":" s = [s].
Proof.
  induction s as [|ch s IH]; intros Hc.
  - reflexivity.
  - rewrite contains_char_cons in Hc. apply orb_false_iff in Hc as [E Hl].
    simpl. rewrite E, (IH Hl). reflexivity.
Qed.

Lemma classify_error_message (result : PyVal) (msg : string) :
  msg <> "" ->
  classify_error result (Some msg) =
    if contains "Traceback" msg || contains "Error" msg then "Crash"
    else hd "" (split ":" msg).
Proof.
  intros Hm. unfold classify_error. simpl.
  apply String.eqb_neq in Hm. rewrite Hm. reflexivity.
Qed.

(** C3 (counterexample). The description "ConnectionError: timeout" of a
    raised failure is not labelled with its text before the colon. *)
Lemma connection_error_not_labelled_by_prefix :
  get_location (Samples.geo_raise "ConnectionError: timeout") (AStr "X") =
    ([AStr "X"], inr (PNone, Some "ConnectionError: timeout")) /\
  classify_error PNone (Some "ConnectionError: timeout") <> "ConnectionError".
Proof. split; [reflexivity | discriminate]. Qed.

(** C3 (amended). When the geocoder raises, the resolver hands back the
    text of the failure, and the classifier labels it "Crash" as soon as
    the text contains "Error" or "Traceback"; so "ConnectionError:
    timeout" is a "Crash".  Only a text with neither word is labelled
    with what stands before its first colon, or with all of it when it
    has no colon. *)
Theorem classify_raised_failure (geo : Adapter) (a : Address) (e : PyExc) :
  usable a = true -> geo a = Raises e ->
  get_location geo a = ([a], inr (PNone, Some (exc_str e))) /\
  (exc_str e = "ConnectionError: timeout" ->
     classify_error PNone (Some (exc_str e)) = "Crash") /\
  (exc_str e <> "" ->
   contains "Traceback" (exc_str e) || contains "Error" (exc_str e) = true ->
     classify_error PNone (Some (exc_str e)) = "Crash") /\
  (contains "Traceback" (exc_str e) || contains "Error" (exc_str e) = false ->
     (forall label rest,
        exc_str e = label ++ ":" ++ rest -> contains ":" label = false ->
        classify_error PNone (Some (exc_str e)) = label) /\
     (exc_str e <> "" -> contains ":" (exc_str e) = false ->
        classify_error PNone (Some (exc_str e)) = exc_str e)).
Proof.
  intros Hu Hg. split.
  { apply resolves_get_location. now constructor. }
  split; [intros ->; reflexivity|].
  split.
  { intros Hne Hc. rewrite classify_error_message by assumption. now rewrite Hc. }
  intros Hc. split.
  - intros label rest E Hl.
    rewrite classify_error_message.
    + rewrite Hc, E. now apply split_colon_prefix.
    + rewrite E. destruct label; discriminate.
  - intros Hne Hl. rewrite classify_error_message by assumption.
    rewrite Hc, (split_no_colon _ Hl). reflexivity.
Qed.

Lemma classify_raised_failure_witness :
  (get_location (Samples.geo_raise "ConnectionError: timeout") (AStr "X") =
     ([AStr "X"], inr (PNone, Some "ConnectionError: timeout")) /\
   classify_error PNone (Some "ConnectionError: timeout") = "Crash") /\
  classify_error PNone (Some "Timeout: no route") = "Timeout".
Proof.
  split.
  - pose proof (classify_raised_failure
                  (Samples.geo_raise "ConnectionError: timeout") (AStr "X")
                  (mkExc "Exception" "ConnectionError: timeout") eq_refl eq_refl)
      as (Hg & Hc & _).
    split; [exact Hg | exact (Hc eq_refl)].
  - pose proof (classify_raised_failure
                  (Samples.geo_raise "Timeout: no route") (AStr "X")
                  (mkExc "Exception" "Timeout: no route") eq_refl eq_refl)
      as (_ & _ & _ & Hp).
    exact (proj1 (Hp eq_refl) "Timeout" " no route" eq_refl eq_refl).
Defined.

(** A row of a report is the row of a resolution of its input address. *)
Lemma report_row_resolved (w : World) (input_path output_path : string) (row : Row) :
  In row (report w input_path output_path) ->
  exists pos idx c r,
    get_location (geocoder w) (input_address row) = (c, inr r) /\
    resolves (geocoder w) (input_address row) c r /\
    (row = absent_row w pos idx (input_address row) (snd r) /\ fst r = PNone
     \/ exists d, r = (project d, None) /\
          row = candidate_row w pos idx (input_address row)
                  (dict_get d "address") (dict_get d "pcode")
                  (dict_get d "latitude") (dict_get d "longitude")).
Proof.
  intros Hin.
  destruct (report_row_origin _ _ _ _ Hin) as (pos & idx & c & Hrow).
  destruct (log_row_total w pos idx (input_address row))
    as (c' & r & row' & Hg & Hr & Hrow' & Hcase).
  rewrite Hrow' in Hrow. injection Hrow as _ ->.
  exists pos, idx, c', r. auto.
Qed.

(** C4 (counterexample). For an address the geocoder answers with the
    empty list, the row does not record "None returned". *)
Lemma empty_answer_not_none_returned :
  let w := Samples.world_of Samples.geo_empty [AStr "X"] in
  geocoder w (AStr "X") = Returns (PList []) /\
  ~ (forall row, In row (report w "data/in.csv" "result/out.csv") ->
                 error_type row = "None returned").
Proof.
  split; [reflexivity|].
  intros H. specialize (H _ (or_introl eq_refl)). discriminate H.
Qed.

(** C4 (amended). Whenever the geocoder, asked for an address of the
    report, answers with the empty list or with [None], the resolver
    hands back the description "No result", and the row records the
    error type "No result", that description and the outcome "Fail". *)
Theorem empty_answer_is_no_result
    (w : World) (input_path output_path : string) (row : Row) :
  In row (report w input_path output_path) ->
  usable (input_address row) = true ->
  geocoder w (input_address row) = Returns (PList []) \/
  geocoder w (input_address row) = Returns PNone ->
  get_location (geocoder w) (input_address row) =
    ([input_address row], inr (PNone, Some "No result")) /\
  error_type row = "No result" /\
  exception_traceback row = Some "No result" /\
  test_outcome row = "Fail".
Proof.
  intros Hin Hu Hans.
  assert (Hres : resolves (geocoder w) (input_address row) [input_address row]
                          (PNone, Some "No result")).
  { destruct Hans as [Hans|Hans];
      eapply resolves_no_result; try eassumption; reflexivity. }
  apply resolves_get_location in Hres.
  destruct (report_row_resolved _ _ _ _ Hin) as (pos & idx & c & r & Hg & _ & Hcase).
  rewrite Hres in Hg. injection Hg as <- <-.
  split; [exact Hres|].
  destruct Hcase as [[-> _]|(d & Hd & _)]; [|discriminate Hd].
  repeat split.
Qed.

Lemma empty_answer_is_no_result_witness :
  let w := Samples.world_of Samples.geo_none [AStr "X"] in
  exists row,
    report w "data/in.csv" "result/out.csv" = [row] /\
    geocoder w (input_address row) = Returns PNone /\
    error_type row = "No result" /\
    test_outcome row = "Fail".
Proof.
  eexists. split; [reflexivity|]. split; [reflexivity|].
  pose proof (empty_answer_is_no_result
                (Samples.world_of Samples.geo_none [AStr "X"])
                "data/in.csv" "result/out.csv" _
                (or_introl eq_refl) eq_refl (or_intror eq_refl))
    as (_ & He & _ & Ho).
  split; [exact He | exact Ho].
Defined.

(** ** Empty input *)

(** C5. For the empty text and for a missing address ([None] or NaN) the
    resolver hands back no result with the description "Empty input",
    whatever the geocoder is, and makes no call to it. *)
Theorem get_location_empty_input (geo : Adapter) :
  get_location geo (AStr "") = ([], inr (PNone, Some "Empty input")) /\
  get_location geo ANone = ([], inr (PNone, Some "Empty input")) /\
  get_location geo ANaN = ([], inr (PNone, Some "Empty input")).
Proof. repeat split. Qed.

(** ** The resolver contains every failure *)

(** C6. Whatever the address and whatever the geocoder does with it, the
    resolver returns to its caller and raises nothing.  What it returns
    is either no result with a description, or a candidate without one;
    and when the geocoder raised, it is no result with the text of the
    exception as its description. *)
Theorem get_location_never_raises (geo : Adapter) (a : Address) :
  exists c result msg,
    get_location geo a = (c, inr (result, msg)) /\
    ((result = PNone /\ exists m, msg = Some m) \/
     (exists d, result = project d /\ msg = None)) /\
    (forall e, usable a = true -> geo a = Raises e ->
       result = PNone /\ msg = Some (exc_str e)).
Proof.
  destruct (get_location_resolves geo a) as (c & [result msg] & Hg & Hr).
  exists c, result, msg. split; [exact Hg|]. split.
  - exact (resolves_shape _ _ _ _ _ Hr).
  - intros e Hu He.
    pose proof (resolves_get_location _ _ _ _ (resolves_raised geo a e Hu He)) as Hg'.
    rewrite Hg' in Hg. injection Hg as _ <- <-. split; reflexivity.
Qed.

Lemma get_location_never_raises_witness :
  exists c result msg,
    get_location (Samples.geo_raise "boom") (AStr "X") = (c, inr (result, msg)) /\
    result = PNone /\ msg = Some "boom".
Proof.
  destruct (get_location_never_raises (Samples.geo_raise "boom") (AStr "X"))
    as (c & result & msg & Hg & _ & Hraise).
  exists c, result, msg. split; [exact Hg|].
  exact (Hraise (mkExc "Exception" "boom") eq_refl eq_refl).
Defined.

(** ** The test outcome *)

(** C7. When the geocoder raises an exception whose text is empty, the
    row carries a failure description (the empty text) and yet its outcome
    is "Partial - Needs Review", not "Fail": the outcome is not "Fail"
    exactly when a failure description is present. *)
Theorem empty_description_is_not_fail :
  let w := Samples.world_of (Samples.geo_raise "") [AStr "X"] in
  let rows := report w "data/in.csv" "result/out.csv" in
  map exception_traceback rows = [Some ""] /\
  map test_outcome rows = ["⚠️ Partial - Needs Review"] /\
  ~ (forall row, In row rows ->
       (test_outcome row = "Fail" <-> exception_traceback row <> None)).
Proof.
  split; [reflexivity|]. split; [reflexivity|].
  intros H. destruct (H _ (or_introl eq_refl)) as [_ H2].
  assert (Hd : Some "" <> @None string) by discriminate.
  specialize (H2 Hd). discriminate H2.
Qed.

(** The outcome label as the code computes it, for every row of a
    report, with the result and the description the resolver handed back
    for its address: "Sanity check: Pass" when there is a candidate whose
    four fields are all truthy and the description is not a non-empty
    text, "Fail" when the description is a non-empty text, and "Partial -
    Needs Review" in every other case. *)
Lemma test_outcome_label
    (w : World) (input_path output_path : string) (row : Row) :
  In row (report w input_path output_path) ->
  let complete :=
    truthy (actual_returned_address row) && truthy (latitude row) &&
    truthy (longitude row) && truthy (pcode row) in
  let described := msg_truthy (exception_traceback row) in
  exists c result,
    get_location (geocoder w) (input_address row) =
      (c, inr (result, exception_traceback row)) /\
    (test_outcome row = "Sanity check: Pass" <->
       is_None result = false /\ complete = true /\ described = false) /\
    (test_outcome row = "Fail" <-> described = true) /\
    (test_outcome row <> "Sanity check: Pass" -> test_outcome row <> "Fail" ->
       test_outcome row = "⚠️ Partial - Needs Review").
Proof.
  intros Hin.
  destruct (report_row_resolved _ _ _ _ Hin)
    as (pos & idx & c & [result msg] & Hg & _ & Hcase).
  destruct Hcase as [[Hrow Hnone]|(d & Hd & Hrow)].
  - simpl in Hnone. subst result.
    exists c, PNone. rewrite Hrow. cbn -[msg_truthy].
    split; [rewrite Hrow in Hg; exact Hg|].
    destruct (msg_truthy msg); repeat split;
      try discriminate; try tauto; intros H; try discriminate H;
      destruct H as (H1 & H2 & H3); discriminate.
  - injection Hd as -> ->.
    exists c, (project d). rewrite Hrow. cbn.
    split; [rewrite Hrow in Hg; exact Hg|].
    destruct (truthy (dict_get d "address")), (truthy (dict_get d "pcode")),
             (truthy (dict_get d "latitude")), (truthy (dict_get d "longitude"));
      cbn; repeat split; try discriminate; try tauto;
      intros H; try discriminate H;
      destruct H as (H1 & H2 & H3); discriminate.
Qed.

Lemma test_outcome_label_witness :
  let w := Samples.world_of Samples.geo_X [AStr "X"] in
  exists row,
    report w "data/in.csv" "result/out.csv" = [row] /\
    test_outcome row = "Sanity check: Pass" /\
    msg_truthy (exception_traceback row) = false.
Proof.
  eexists. split; [reflexivity|].
  destruct (test_outcome_label
              (Samples.world_of Samples.geo_X [AStr "X"])
              "data/in.csv" "result/out.csv" _ (or_introl eq_refl))
    as (c & result & _ & Hpass & _).
  split; [reflexivity|].
  exact (proj2 (proj2 (proj1 Hpass eq_refl))).
Defined.

(** ** Failures of the whole run *)

(** When the input file does not exist, or its extension is none of
    .csv, .xlsx and .xls, the run ends before the loop: no row is built,
    the geocoder is never called and no report is saved.  A missing file
    ends the run with a printed line, an unsupported extension with a
    [ValueError]. *)
Lemma input_failure_produces_no_rows
    (w : World) (input_path output_path : string) :
  path_exists w input_path = false \/
  supported_input_ext (file_ext input_path) = false ->
  let run := run_bulk_geocode w input_path output_path in
  log_rows run = [] /\ geocoder_calls run = [] /\ saved run = None /\
  (path_exists w input_path = false ->
     raised run = None /\
     printed run = ["❌ Error: File not found — " ++ input_path]) /\
  (path_exists w input_path = true ->
     printed run = [] /\ exists msg, raised run = Some (ValueError msg)).
Proof.
  intros Hfail run. subst run. unfold run_bulk_geocode, load_input.
  destruct (path_exists w input_path) eqn:Hex; simpl.
  - destruct Hfail as [Hfail|Hfail]; [discriminate|].
    unfold file_ext in Hfail. unfold supported_input_ext in Hfail.
    apply orb_false_iff in Hfail as [Hfail Hxls].
    apply orb_false_iff in Hfail as [Hcsv Hxlsx].
    rewrite Hcsv, Hxlsx, Hxls. simpl.
    destruct (String.eqb (lower (snd (splitext input_path))) ""); simpl;
      (split; [reflexivity|]); (split; [reflexivity|]); (split; [reflexivity|]);
      (split; [discriminate|]); intros _; (split; [reflexivity|]);
      eexists; reflexivity.
  - split; [reflexivity|]. split; [reflexivity|]. split; [reflexivity|].
    split; [intros _; split; reflexivity | discriminate].
Qed.

(** An output path that ends in neither .xlsx nor .csv is found out only
    after the loop: the rows are built, and none is saved. *)
Lemma unsupported_output_saves_nothing :
  let w := Samples.world_of Samples.geo_X [AStr "X"] in
  let run := run_bulk_geocode w "data/in.csv" "result/out.txt" in
  List.length (log_rows run) = 1 /\ geocoder_calls run = [AStr "X"] /\
  saved run = None /\ raised run = None /\
  printed run = ["❌ Unsupported output format. Use .csv or .xlsx"].
Proof. repeat split. Qed.

(** ** The shape of what the resolver hands back *)

Lemma wrong_format_branch_label (result : PyVal) (exception_msg : option string) :
  wrong_format_branch result exception_msg = true ->
  classify_error result exception_msg = "Wrong format".
Proof.
  unfold wrong_format_branch, classify_error. intros H.
  apply andb_true_iff in H as [H Hd]. apply andb_true_iff in H as [Hm Hn].
  apply negb_true_iff in Hm, Hn. rewrite Hm, Hn, Hd. reflexivity.
Qed.

(** C9 (counterexample). The classifier does return the text "Wrong
    format" for something the resolver hands back: a failure whose
    description begins with these words. *)
Lemma wrong_format_label_reachable :
  get_location (Samples.geo_raise "Wrong format: not a list") (AStr "X") =
    ([AStr "X"], inr (PNone, Some "Wrong format: not a list")) /\
  ~ (forall geo a c r, get_location geo a = (c, inr r) ->
       classify_error (fst r) (snd r) <> "Wrong format").
Proof.
  split; [reflexivity|].
  intros H.
  apply (H (Samples.geo_raise "Wrong format: not a list") (AStr "X") _ _ eq_refl).
  reflexivity.
Qed.

(** C9 (amended). What the resolver hands back is [None] or a dict with
    exactly the keys address, pcode, lat, log, so the classifier never
    goes into its "Wrong format" branch.  It returns the text "Wrong
    format" only as a short label: when the description is a non-empty
    text without "Traceback" and "Error" whose part before the first
    colon is "Wrong format". *)
Theorem wrong_format_branch_unreachable (geo : Adapter) (a : Address) :
  exists c result msg,
    get_location geo a = (c, inr (result, msg)) /\
    (result = PNone \/
     exists d, result = PDict d /\ dict_keys d = ["address"; "pcode"; "lat"; "log"]) /\
    wrong_format_branch result msg = false /\
    (classify_error result msg = "Wrong format" ->
       exists m, msg = Some m /\ m <> "" /\
         contains "Traceback" m || contains "Error" m = false /\
         hd "" (split ":" m) = "Wrong format").
Proof.
  destruct (get_location_resolves geo a) as (c & [result msg] & Hg & Hr).
  pose proof (resolves_shape _ _ _ _ _ Hr) as Hshape.
  exists c, result, msg. split; [exact Hg|].
  destruct Hshape as [(-> & m & ->)|(d & -> & ->)].
  - split; [now left|]. split.
    { unfold wrong_format_branch. simpl. now rewrite andb_false_r. }
    intros Hc. exists m.
    destruct (String.eqb m "") eqn:Hm.
    + apply String.eqb_eq in Hm. subst m. discriminate Hc.
    + apply String.eqb_neq in Hm.
      rewrite classify_error_message in Hc by assumption.
      destruct (contains "Traceback" m || contains "Error" m); [discriminate Hc|].
      auto.
  - split; [right; eexists; split; reflexivity|]. split; [reflexivity|].
    intros Hc. exfalso. revert Hc. unfold project. cbn.
    destruct (is_None (dict_get d "address") || _); discriminate.
Qed.

Lemma wrong_format_branch_unreachable_witness :
  exists c result msg,
    get_location (Samples.geo_raise "Wrong format: not a list") (AStr "X") =
      (c, inr (result, msg)) /\
    wrong_format_branch result msg = false /\
    exists m, msg = Some m /\ hd "" (split ":" m) = "Wrong format".
Proof.
  destruct (wrong_format_branch_unreachable
              (Samples.geo_raise "Wrong format: not a list") (AStr "X"))
    as (c & result & msg & Hg & _ & Hb & Hlabel).
  exists c, result, msg. split; [exact Hg|]. split; [exact Hb|].
  assert (Hc : classify_error result msg = "Wrong format").
  { pose proof Hg as Hg'. cbv in Hg'. injection Hg' as _ <- <-. reflexivity. }
  destruct (Hlabel Hc) as (m & Hm & _ & _ & Hhd).
  exists m. split; [exact Hm | exact Hhd].
Defined.

(** ** Present but falsy fields *)



(** * Further properties of the resolver and of the rows *)

(** The resolver calls the geocoder once for a usable address and not
    at all for any other. *)
Lemma resolves_calls (geo : Adapter) (a : Address) c r :
  resolves geo a c r -> c = if usable a then [a] else [].
Proof.
  intros H. destruct H as [Hu|e Hu _|v Hu _ _|x rest Hu _ _|d rest Hu _];
    now rewrite Hu.
Qed.

(** The row of a report, from any account of how its address resolves. *)
Lemma report_row_of_resolution
    (w : World) (input_path output_path : string) (row : Row) c r :
  In row (report w input_path output_path) ->
  resolves (geocoder w) (input_address row) c r ->
  exists pos idx,
    (fst r = PNone /\ row = absent_row w pos idx (input_address row) (snd r)) \/
    (exists d, r = (project d, None) /\
       row = candidate_row w pos idx (input_address row)
               (dict_get d "address") (dict_get d "pcode")
               (dict_get d "latitude") (dict_get d "longitude")).
Proof.
  intros Hin Hr.
  destruct (report_row_resolved _ _ _ _ Hin) as (pos & idx & c' & r' & Hg & _ & Hcase).
  rewrite (resolves_get_location _ _ _ _ Hr) in Hg. injection Hg as <- <-.
  exists pos, idx. destruct Hcase as [[Hrow Hn]|Hc]; [left; now split | now right].
Qed.

(** X1. A geocoder answer that is not a list, or is the empty list (a
    bare dict, a text, a number, [None]), counts as no result: the row of
    that address has the description and the error type "No result", the
    outcome "Fail" and no resolved field. *)
Theorem answer_without_candidates_row
    (w : World) (input_path output_path : string) (row : Row) (v : PyVal) :
  In row (report w input_path output_path) ->
  usable (input_address row) = true ->
  geocoder w (input_address row) = Returns v ->
  isinstance_list v = false \/ v = PList [] ->
  exception_traceback row = Some "No result" /\
  error_type row = "No result" /\
  test_outcome row = "Fail" /\
  result_format_ok row = "Invalid or empty result" /\
  missing_fields row = "address, lat, log, pcode" /\
  actual_returned_address row = PNone /\ latitude row = PNone /\
  longitude row = PNone /\ pcode row = PNone.
Proof.
  intros Hin Hu Hg Hv.
  assert (Hn : no_candidates v = true).
  { unfold no_candidates. destruct Hv as [Hv| ->]; [|reflexivity].
    rewrite Hv. simpl. now rewrite orb_true_r. }
  pose proof (resolves_no_result _ _ v Hu Hg Hn) as Hr.
  destruct (report_row_of_resolution _ _ _ _ _ _ Hin Hr)
    as (pos & idx & [[_ ->]|(d & Hd & _)]); [|discriminate Hd].
  repeat split.
Qed.

Lemma answer_without_candidates_row_witness :
  let w := Samples.world_of (fun _ => Returns Samples.candidate_X) [AStr "X"] in
  exists row,
    report w "data/in.csv" "result/out.csv" = [row] /\
    exception_traceback row = Some "No result" /\ test_outcome row = "Fail".
Proof.
  eexists. split; [reflexivity|].
  destruct (answer_without_candidates_row
              (Samples.world_of (fun _ => Returns Samples.candidate_X) [AStr "X"])
              "data/in.csv" "result/out.csv" _ Samples.candidate_X
              (or_introl eq_refl) eq_refl eq_refl (or_introl eq_refl))
    as (He & _ & Ho & _).
  split; [exact He | exact Ho].
Defined.

(** X2. When the first item of the geocoder's list is not a dict, the
    lookup of its fields fails inside the resolver; the row of that
    address carries the text of that failure as its description, has the
    outcome "Fail" and no resolved field. *)
Theorem first_item_not_dict_row
    (w : World) (input_path output_path : string) (row : Row)
    (x : PyVal) (rest : list PyVal) :
  In row (report w input_path output_path) ->
  usable (input_address row) = true ->
  geocoder w (input_address row) = Returns (PList (x :: rest)) ->
  isinstance_dict x = false ->
  exception_traceback row =
    Some ("'" ++ type_name x ++ "' object has no attribute 'get'") /\
  test_outcome row = "Fail" /\
  actual_returned_address row = PNone /\ latitude row = PNone /\
  longitude row = PNone /\ pcode row = PNone.
Proof.
  intros Hin Hu Hg Hx.
  pose proof (resolves_not_dict _ _ x rest Hu Hg Hx) as Hr.
  destruct (report_row_of_resolution _ _ _ _ _ _ Hin Hr)
    as (pos & idx & [[_ ->]|(d & Hd & _)]); [|discriminate Hd].
  repeat split.
Qed.

Lemma first_item_not_dict_row_witness :
  let w := Samples.world_of (fun _ => Returns (PList [PStr "Yangon"])) [AStr "X"] in
  exists row,
    report w "data/in.csv" "result/out.csv" = [row] /\
    exception_traceback row = Some "'str' object has no attribute 'get'" /\
    test_outcome row = "Fail".
Proof.
  eexists. split; [reflexivity|].
  destruct (first_item_not_dict_row
              (Samples.world_of (fun _ => Returns (PList [PStr "Yangon"])) [AStr "X"])
              "data/in.csv" "result/out.csv" _ (PStr "Yangon") []
              (or_introl eq_refl) eq_refl eq_refl eq_refl)
    as (He & Ho & _).
  split; [exact He | exact Ho].
Defined.

(** X3. When the first item of the geocoder's list is a dict, the row
    shows what that dict holds under address, latitude, longitude and
    pcode, [None] standing for a key it lacks; the further items of the
    list and the other keys of the dict leave no trace, and the row has
    no failure description. *)
Theorem first_candidate_row
    (w : World) (input_path output_path : string) (row : Row)
    (d : list (string * PyVal)) (rest : list PyVal) :
  In row (report w input_path output_path) ->
  usable (input_address row) = true ->
  geocoder w (input_address row) = Returns (PList (PDict d :: rest)) ->
  actual_returned_address row = dict_get d "address" /\
  latitude row = dict_get d "latitude" /\
  longitude row = dict_get d "longitude" /\
  pcode row = dict_get d "pcode" /\
  exception_traceback row = None /\
  (forall k, ~ In k (dict_keys d) -> dict_get d k = PNone).
Proof.
  intros Hin Hu Hg.
  pose proof (resolves_candidate _ _ d rest Hu Hg) as Hr.
  destruct (report_row_of_resolution _ _ _ _ _ _ Hin Hr)
    as (pos & idx & [[Hn _]|(d' & Hd & ->)]); [discriminate Hn|].
  injection Hd as Ha Hp Hlat Hlog. rewrite <- Ha, <- Hp, <- Hlat, <- Hlog.
  repeat split.
  clear. intros k. induction d as [|[k' v] d IH]; intros Hk; [reflexivity|].
  simpl. destruct (String.eqb k' k) eqn:E.
  - apply String.eqb_eq in E. exfalso. apply Hk. now left.
  - apply IH. intros H. apply Hk. now right.
Qed.

Lemma first_candidate_row_witness :
  let w := Samples.world_of
             (fun _ => Returns (PList [PDict [("address", PStr "X"); ("note", PInt 1)];
                                       Samples.candidate_X]))
             [AStr "X"] in
  exists row,
    report w "data/in.csv" "result/out.csv" = [row] /\
    actual_returned_address row = PStr "X" /\ pcode row = PNone.
Proof.
  eexists. split; [reflexivity|].
  destruct (first_candidate_row
              (Samples.world_of
                 (fun _ => Returns (PList [PDict [("address", PStr "X"); ("note", PInt 1)];
                                           Samples.candidate_X]))
                 [AStr "X"])
              "data/in.csv" "result/out.csv" _
              [("address", PStr "X"); ("note", PInt 1)] [Samples.candidate_X]
              (or_introl eq_refl) eq_refl eq_refl)
    as (Ha & _ & _ & Hp & _).
  split; [exact Ha | exact Hp].
Defined.

(** X4. A failure of the geocoder stays in the row of its address: the
    row carries the text of the exception as its description and no
    resolved field, its error type is what the classifier makes of that
    text, and its outcome is "Fail" unless the text is empty. *)
Theorem raised_failure_row
    (w : World) (input_path output_path : string) (row : Row) (e : PyExc) :
  In row (report w input_path output_path) ->
  usable (input_address row) = true ->
  geocoder w (input_address row) = Raises e ->
  exception_traceback row = Some (exc_str e) /\
  error_type row = classify_error PNone (Some (exc_str e)) /\
  (test_outcome row = "Fail" <-> exc_str e <> "") /\
  (exc_str e = "" ->
     error_type row = "None returned" /\
     test_outcome row = "⚠️ Partial - Needs Review") /\
  actual_returned_address row = PNone /\ latitude row = PNone /\
  longitude row = PNone /\ pcode row = PNone.
Proof.
  intros Hin Hu Hg.
  pose proof (resolves_raised _ _ e Hu Hg) as Hr.
  destruct (report_row_of_resolution _ _ _ _ _ _ Hin Hr)
    as (pos & idx & [[_ ->]|(d & Hd & _)]); [|discriminate Hd].
  cbn -[classify_error]. split; [reflexivity|]. split; [reflexivity|].
  destruct (String.eqb (exc_str e) "") eqn:E; simpl.
  - apply String.eqb_eq in E. rewrite E.
    split; [split; [discriminate | intros H; now contradiction H]|].
    split; [intros _; split; reflexivity|]. repeat split.
  - apply String.eqb_neq in E.
    split; [split; [intros _; exact E | reflexivity]|].
    split; [intros H; contradiction|]. repeat split.
Qed.

Lemma raised_failure_row_witness :
  let w := Samples.world_of (Samples.geo_raise "timed out") [AStr "X"] in
  exists row,
    report w "data/in.csv" "result/out.csv" = [row] /\
    exception_traceback row = Some "timed out" /\ test_outcome row = "Fail".
Proof.
  eexists. split; [reflexivity|].
  destruct (raised_failure_row
              (Samples.world_of (Samples.geo_raise "timed out") [AStr "X"])
              "data/in.csv" "result/out.csv" _ (mkExc "Exception" "timed out")
              (or_introl eq_refl) eq_refl eq_refl)
    as (He & _ & Ho & _).
  split; [exact He|]. apply Ho. discriminate.
Defined.

(** X5. A row whose input address is not usable (in a report, the empty
    text) is written without asking the geocoder: its description and
    its error type are "Empty input" and its outcome is "Fail". *)
Theorem empty_input_row
    (w : World) (input_path output_path : string) (row : Row) :
  In row (report w input_path output_path) ->
  usable (input_address row) = false ->
  get_location (geocoder w) (input_address row) =
    ([], inr (PNone, Some "Empty input")) /\
  exception_traceback row = Some "Empty input" /\
  error_type row = "Empty input" /\
  test_outcome row = "Fail" /\
  result_format_ok row = "Invalid or empty result" /\
  missing_fields row = "address, lat, log, pcode".
Proof.
  intros Hin Hu.
  pose proof (resolves_empty (geocoder w) _ Hu) as Hr.
  split; [now apply resolves_get_location|].
  destruct (report_row_of_resolution _ _ _ _ _ _ Hin Hr)
    as (pos & idx & [[_ ->]|(d & Hd & _)]); [|discriminate Hd].
  repeat split.
Qed.

Lemma empty_input_row_witness :
  let w := Samples.world_of Samples.geo_X [AStr ""] in
  exists row,
    report w "data/in.csv" "result/out.csv" = [row] /\
    input_address row = AStr "" /\
    error_type row = "Empty input" /\ test_outcome row = "Fail".
Proof.
  eexists. split; [reflexivity|]. split; [reflexivity|].
  destruct (empty_input_row
              (Samples.world_of Samples.geo_X [AStr ""])
              "data/in.csv" "result/out.csv" _ (or_introl eq_refl) eq_refl)
    as (_ & _ & He & Ho & _).
  split; [exact He | exact Ho].
Defined.

(** The shape of any row of a report. *)
Lemma report_row_shape (w : World) (input_path output_path : string) (row : Row) :
  In row (report w input_path output_path) ->
  exists pos idx,
    (exists m, row = absent_row w pos idx (input_address row) (Some m)) \/
    (exists va vp vlat vlog,
       row = candidate_row w pos idx (input_address row) va vp vlat vlog).
Proof.
  intros Hin.
  destruct (report_row_resolved _ _ _ _ Hin)
    as (pos & idx & c & [result msg] & _ & Hr & Hcase).
  exists pos, idx.
  destruct Hcase as [[Hrow Hn]|(d & _ & Hrow)].
  - simpl in Hn, Hrow. subst result.
    destruct (resolves_shape _ _ _ _ _ Hr) as [(_ & m & ->)|(d & Hd & _)].
    + left. now exists m.
    + discriminate Hd.
  - right. eauto.
Qed.

(** X6. The columns of a row agree on success: the outcome is "Sanity
    check: Pass" exactly when the completeness label is "All fields
    present", and a passing row has Missing Fields "None", the error type
    "No error", no failure description and four truthy fields. *)
Theorem pass_row_is_complete
    (w : World) (input_path output_path : string) (row : Row) :
  In row (report w input_path output_path) ->
  (test_outcome row = "Sanity check: Pass" <->
     result_format_ok row = "All fields present") /\
  (test_outcome row = "Sanity check: Pass" ->
     missing_fields row = "None" /\ error_type row = "No error" /\
     exception_traceback row = None /\
     truthy (actual_returned_address row) = true /\ truthy (latitude row) = true /\
     truthy (longitude row) = true /\ truthy (pcode row) = true).
Proof.
  intros Hin.
  destruct (report_row_shape _ _ _ _ Hin)
    as (pos & idx & [(m & ->)|(va & vp & vlat & vlog & ->)]).
  - cbn -[classify_error msg_truthy].
    destruct (msg_truthy (Some m));
      (split; [split; intros H; discriminate H | intros H; discriminate H]).
  - cbn.
    assert (Hnone : forall v, truthy v = true -> is_None v = false)
      by (intros [] Hv; try reflexivity; discriminate Hv).
    destruct (truthy vlat) eqn:Hlat, (truthy vlog) eqn:Hlog,
             (truthy vp) eqn:Hp, (truthy va) eqn:Ha; cbn;
      try (split; [split; intros H; discriminate H | intros H; discriminate H]).
    rewrite (Hnone _ Ha), (Hnone _ Hlat), (Hnone _ Hlog), (Hnone _ Hp).
    split; [split; reflexivity | intros _; repeat split].
Qed.

Lemma pass_row_is_complete_witness :
  let w := Samples.world_of Samples.geo_X [AStr "X"] in
  exists row,
    report w "data/in.csv" "result/out.csv" = [row] /\
    result_format_ok row = "All fields present" /\
    missing_fields row = "None" /\ error_type row = "No error".
Proof.
  eexists. split; [reflexivity|]. split; [reflexivity|].
  destruct (pass_row_is_complete
              (Samples.world_of Samples.geo_X [AStr "X"])
              "data/in.csv" "result/out.csv" _ (or_introl eq_refl))
    as (_ & Hpass).
  destruct (Hpass eq_refl) as (Hm & He & _).
  split; [exact Hm | exact He].
Defined.

Lemma is_None_eq (v : PyVal) : is_None v = true -> v = PNone.
Proof. destruct v; intros H; try discriminate H; reflexivity. Qed.

(** X7. In a row without a failure description (the row of a candidate)
    the Missing Fields column lists, in the order address, lat, log,
    pcode, the fields that are [None] ("None" when there is none); the
    error type is "Missing fields" when a field is listed and "No error"
    when not; and a row with a listed field has the outcome "Partial -
    Needs Review" and names each listed field in its completeness label
    too, among the falsy ones. *)
Theorem missing_fields_row
    (w : World) (input_path output_path : string) (row : Row) :
  In row (report w input_path output_path) ->
  exception_traceback row = None ->
  let none_names :=
    names_where is_None
      [("address", actual_returned_address row); ("lat", latitude row);
       ("log", longitude row); ("pcode", pcode row)] in
  let falsy_names :=
    names_where falsy
      [("lat", latitude row); ("log", longitude row);
       ("pcode", pcode row); ("address", actual_returned_address row)] in
  missing_fields row = none_or_names none_names /\
  (error_type row = "Missing fields" <-> none_names <> []) /\
  (error_type row = "No error" <-> none_names = []) /\
  (none_names <> [] ->
     test_outcome row = "⚠️ Partial - Needs Review" /\
     result_format_ok row = "Missing: " ++ join ", " falsy_names /\
     forall k, In k none_names -> In k falsy_names).
Proof.
  intros Hin Hmsg.
  destruct (report_row_shape _ _ _ _ Hin)
    as (pos & idx & [(m & Hrow)|(va & vp & vlat & vlog & Hrow)]).
  { rewrite Hrow in Hmsg. discriminate Hmsg. }
  rewrite Hrow. clear. unfold candidate_row, names_where, falsy. cbn.
  destruct (is_None va) eqn:Ea; [apply is_None_eq in Ea; subst va|];
  (destruct (is_None vlat) eqn:Elat; [apply is_None_eq in Elat; subst vlat|]);
  (destruct (is_None vlog) eqn:Elog; [apply is_None_eq in Elog; subst vlog|]);
  (destruct (is_None vp) eqn:Ep; [apply is_None_eq in Ep; subst vp|]);
  cbn;
  (split; [reflexivity|]);
  (split; [split; intros H; congruence|]);
  (split; [split; intros H; congruence|]);
  intros Hne; try congruence;
  repeat match goal with
         | |- context [truthy ?v] => destruct (truthy v)
         end; cbn;
  (split; [reflexivity|]); (split; [reflexivity|]);
  intros k Hk; cbn in Hk |- *; tauto.
Qed.

Lemma missing_fields_row_witness :
  let w := Samples.world_of
             (fun _ => Returns (PList [PDict [("address", PStr "X");
                                              ("latitude", PFloat Samples.f16_8);
                                              ("longitude", PFloat Samples.f96_1)]]))
             [AStr "X"] in
  exists row,
    report w "data/in.csv" "result/out.csv" = [row] /\
    missing_fields row = "pcode" /\
    error_type row = "Missing fields" /\
    result_format_ok row = "Missing: pcode".
Proof.
  eexists. split; [reflexivity|].
  destruct (missing_fields_row
              (Samples.world_of
                 (fun _ => Returns (PList [PDict [("address", PStr "X");
                                                  ("latitude", PFloat Samples.f16_8);
                                                  ("longitude", PFloat Samples.f96_1)]]))
                 [AStr "X"])
              "data/in.csv" "result/out.csv" _ (or_introl eq_refl) eq_refl)
    as (Hm & He & _ & Hp).
  split; [exact Hm|]. split.
  - apply (proj2 He). discriminate.
  - refine (proj1 (proj2 (Hp _))). discriminate.
Defined.

(** * Further properties of the run *)

Lemma log_row_calls (w : World) (pos idx : nat) (a : Address) c row :
  log_row w pos idx a = (c, inr row) -> c = if usable a then [a] else [].
Proof.
  intros H.
  destruct (log_row_total w pos idx a) as (c' & r & row' & _ & Hr & Hrow & _).
  rewrite Hrow in H. injection H as <- _. now apply resolves_calls in Hr.
Qed.

Lemma rows_of_calls w pos df c rows :
  rows_of w pos df c rows -> c = filter usable (map snd df).
Proof.
  induction 1 as [|pos idx a rest c row c' rows Hrow Hrest IH]; simpl.
  - reflexivity.
  - apply log_row_calls in Hrow. subst c c'. now destruct (usable a).
Qed.

(** A run either ends before its loop, leaving nothing, or goes through
    the cleaned frame of the column it loaded. *)
Lemma run_cases (w : World) (input_path output_path : string) :
  let run := run_bulk_geocode w input_path output_path in
  (log_rows run = [] /\ geocoder_calls run = [] /\ saved run = None) \/
  (exists col c rows,
     load_input w input_path = LoadedTable (Some col) /\
     rows_of w 0 (cleaned_from [] 0 col) c rows /\
     log_rows run = rows /\ geocoder_calls run = c).
Proof.
  intros run. subst run.
  destruct (load_input w input_path) as [line|e|[col|]] eqn:Hload;
    try (left; unfold run_bulk_geocode; rewrite Hload; repeat split; fail).
  right. destruct (run_loaded w input_path output_path col Hload)
    as (c & rows & Hrows & Hrun).
  exists col, c, rows. rewrite Hrun. repeat split; assumption.
Qed.

(** X8. In every run the geocoder is asked exactly for the usable input
    addresses of the rows, once each and in the order of the rows: it is
    never asked twice for one address, and never for an empty one. *)
Theorem geocoder_called_once_per_usable_address
    (w : World) (input_path output_path : string) :
  let run := run_bulk_geocode w input_path output_path in
  geocoder_calls run = filter usable (map input_address (log_rows run)) /\
  NoDup (geocoder_calls run) /\
  (forall a, In a (geocoder_calls run) -> exists s, a = AStr s /\ s <> "").
Proof.
  intros run.
  assert (Heq : geocoder_calls run = filter usable (map input_address (log_rows run))
                /\ NoDup (map input_address (log_rows run))).
  { pose proof (run_cases w input_path output_path) as Hcases.
    cbv zeta in Hcases. fold run in Hcases.
    destruct Hcases as [(Hr & Hc & _)|(col & c & rows & _ & Hrows & Hr & Hc)].
    - rewrite Hr, Hc. split; [reflexivity | constructor].
    - rewrite Hr, Hc, (rows_of_addresses _ _ _ _ _ Hrows). split.
      + now apply rows_of_calls in Hrows.
      + apply cleaned_from_NoDup. }
  destruct Heq as [Heq Hnd]. split; [exact Heq|]. rewrite Heq. split.
  - now apply NoDup_filter.
  - intros a Ha. apply filter_In in Ha as [_ Hu]. now apply usable_text.
Qed.

Lemma geocoder_called_once_per_usable_address_witness :
  let run := run_bulk_geocode
               (Samples.world_of Samples.geo_X [AStr "A"; AStr ""; AStr "A"; ANaN; AStr "B"])
               "data/in.csv" "result/out.csv" in
  geocoder_calls run = [AStr "A"; AStr "B"] /\
  exists s, AStr "B" = AStr s /\ s <> "".
Proof.
  intros run.
  destruct (geocoder_called_once_per_usable_address
              (Samples.world_of Samples.geo_X [AStr "A"; AStr ""; AStr "A"; ANaN; AStr "B"])
              "data/in.csv" "result/out.csv") as (Hc & _ & Ht).
  split; [exact Hc|]. apply Ht. right. now left.
Defined.

(** X9. An exception of the pandas reader chosen by the extension of an
    existing input file (.csv: [read_csv]; .xlsx, .xls: [read_excel];
    letter case apart) ends the run as it is: the run raises that very
    exception, builds no row, asks the geocoder nothing, prints and saves
    nothing. *)
Theorem reader_failure_ends_run
    (w : World) (input_path output_path : string) (e : PyExc) :
  path_exists w input_path = true ->
  (file_ext input_path = ".csv" /\ read_csv w input_path = inl e) \/
  ((file_ext input_path = ".xlsx" \/ file_ext input_path = ".xls") /\
   read_excel w input_path = inl e) ->
  let run := run_bulk_geocode w input_path output_path in
  raised run = Some e /\ log_rows run = [] /\ geocoder_calls run = [] /\
  printed run = [] /\ saved run = None.
Proof.
  intros Hex Hread run. subst run. unfold run_bulk_geocode, load_input.
  rewrite Hex. simpl. fold (file_ext input_path).
  destruct Hread as [[Hext Hr]|[Hext Hr]].
  - rewrite Hext, Hr. simpl. repeat split.
  - destruct Hext as [Hext|Hext]; rewrite Hext, Hr; simpl; repeat split.
Qed.

Lemma reader_failure_ends_run_witness :
  let w := {| path_exists := fun _ => true;
              read_csv := fun _ => inl (mkExc "ParserError" "Error tokenizing data");
              read_excel := fun _ => inr (Some []);
              geocoder := Samples.geo_X;
              clock_stamp := fun _ => "";
              clock_duration := fun _ => S754_zero false;
              makedirs := fun _ => None;
              write_report := fun _ _ => None |} in
  raised (run_bulk_geocode w "data/In.CSV" "result/out.csv") =
    Some (mkExc "ParserError" "Error tokenizing data").
Proof.
  intros w.
  exact (proj1 (reader_failure_ends_run w "data/In.CSV" "result/out.csv"
                  (mkExc "ParserError" "Error tokenizing data")
                  eq_refl (or_introl (conj eq_refl eq_refl)))).
Defined.

(** X10. A table that loads but has no column named address ends the
    run with a [KeyError] before any row: nothing is built, asked, printed
    or saved. *)
Theorem missing_address_column_ends_run
    (w : World) (input_path output_path : string) :
  load_input w input_path = LoadedTable None ->
  let run := run_bulk_geocode w input_path output_path in
  raised run = Some (mkExc "KeyError" "['address']") /\
  log_rows run = [] /\ geocoder_calls run = [] /\
  printed run = [] /\ saved run = None.
Proof.
  intros Hload run. subst run. unfold run_bulk_geocode. rewrite Hload.
  simpl. repeat split.
Qed.

Lemma missing_address_column_ends_run_witness :
  let w := {| path_exists := fun _ => true;
              read_csv := fun _ => inr None;
              read_excel := fun _ => inr None;
              geocoder := Samples.geo_X;
              clock_stamp := fun _ => "";
              clock_duration := fun _ => S754_zero false;
              makedirs := fun _ => None;
              write_report := fun _ _ => None |} in
  raised (run_bulk_geocode w "data/in.xls" "result/out.csv") =
    Some (mkExc "KeyError" "['address']").
Proof.
  intros w.
  exact (proj1 (missing_address_column_ends_run w "data/in.xls" "result/out.csv" eq_refl)).
Defined.

(** * Further properties of the classifier *)

Lemma prefix_cons (c : ascii) (a b : string) :
  String.prefix (String c a) (String c b) = String.prefix a b.
Proof. simpl. destruct (ascii_dec c c) as [_|Hne]; [reflexivity | now contradiction Hne]. Qed.

Lemma prefix_empty (s : string) : String.prefix "" s = true.
Proof. now destruct s. Qed.

(** The short label cut from a message has no colon and begins the
    message. *)
Lemma split_hd_colon_free (m : string) :
  contains ":" (hd "" (split ":" m)) = false /\
  String.prefix (hd "" (split ":" m)) m = true.
Proof.
  induction m as [|ch rest [IHc IHp]].
  - split; reflexivity.
  - simpl split. destruct (Ascii.eqb ch ":") eqn:E.
    + split; [reflexivity | apply prefix_empty].
    + destruct (split ":" rest) as [|x xs]; simpl hd in *.
      * split; [now rewrite contains_char_cons, E | now rewrite prefix_cons].
      * split; [now rewrite contains_char_cons, E, IHc | now rewrite prefix_cons].
Qed.

(** X11. Whatever it is given, the classifier returns one of the five
    fixed labels "Crash", "None returned", "Wrong format", "Missing
    fields", "No error", or else a short label cut from a non-empty
    message free of "Traceback" and "Error": the beginning of the message
    up to its first colon, a text without a colon. *)
Theorem classify_error_labels (result : PyVal) (exception_msg : option string) :
  let label := classify_error result exception_msg in
  In label ["Crash"; "None returned"; "Wrong format"; "Missing fields"; "No error"] \/
  (exists m,
     exception_msg = Some m /\ m <> "" /\
     contains "Traceback" m || contains "Error" m = false /\
     label = hd "" (split ":" m) /\
     contains ":" label = false /\ String.prefix label m = true).
Proof.
  intros label. subst label. unfold classify_error.
  destruct (msg_truthy exception_msg) eqn:Hm.
  - destruct exception_msg as [m|]; [|discriminate Hm]. simpl in Hm |- *.
    apply negb_true_iff, String.eqb_neq in Hm.
    destruct (contains "Traceback" m || contains "Error" m) eqn:Hc.
    + left. now left.
    + right. exists m. destruct (split_hd_colon_free m) as [H1 H2]. auto 7.
  - left. destruct (is_None result); [simpl; tauto|].
    destruct (negb (isinstance_dict result)); [simpl; tauto|].
    destruct (existsb _ _); simpl; tauto.
Qed.

Lemma is_None_false (v : PyVal) : is_None v = false -> v <> PNone.
Proof. intros H ->. discriminate H. Qed.

(** X12. Without a message, or with the empty one, the classifier finds
    "No error" in a dict exactly when the dict holds a value other than
    [None] under each of address, lat, log and pcode, and "Missing fields"
    in every other dict, the empty one included; whether the values are
    falsy plays no part. *)
Theorem classify_error_dict (d : list (string * PyVal)) (exception_msg : option string) :
  msg_truthy exception_msg = false ->
  let present :=
    dict_get d "address" <> PNone /\ dict_get d "lat" <> PNone /\
    dict_get d "log" <> PNone /\ dict_get d "pcode" <> PNone in
  (classify_error (PDict d) exception_msg = "No error" <-> present) /\
  (classify_error (PDict d) exception_msg = "Missing fields" <-> ~ present).
Proof.
  intros Hm present. subst present. unfold classify_error. rewrite Hm. simpl.
  destruct (is_None (dict_get d "address")) eqn:Ea;
    [apply is_None_eq in Ea | apply is_None_false in Ea];
  (destruct (is_None (dict_get d "lat")) eqn:Elat;
    [apply is_None_eq in Elat | apply is_None_false in Elat]);
  (destruct (is_None (dict_get d "log")) eqn:Elog;
    [apply is_None_eq in Elog | apply is_None_false in Elog]);
  (destruct (is_None (dict_get d "pcode")) eqn:Ep;
    [apply is_None_eq in Ep | apply is_None_false in Ep]);
  simpl; (split; split; intros H; try discriminate H; try reflexivity;
          try tauto; try (exfalso; tauto)).
Qed.

Lemma classify_error_dict_witness :
  classify_error (PDict [("address", PStr ""); ("lat", PInt 0);
                         ("log", PInt 0); ("pcode", PStr "")]) (Some "") = "No error" /\
  classify_error Samples.candidate_X None = "Missing fields".
Proof.
  split.
  - apply (classify_error_dict
             [("address", PStr ""); ("lat", PInt 0); ("log", PInt 0); ("pcode", PStr "")]
             (Some "") eq_refl).
    repeat split; discriminate.
  - apply (classify_error_dict
             [("address", PStr "X"); ("pcode", PStr "11000");
              ("latitude", PFloat Samples.f16_8); ("longitude", PFloat Samples.f96_1)]
             None eq_refl).
    intros (_ & H & _). now apply H.
Defined.

(** * Further properties of the test identifiers *)

(** A zero-padded number reads back as the number it was made from. *)
Lemma read_format_04 (n : nat) :
  option_map Nat.of_uint (NilEmpty.uint_of_string (format_04 n)) = Some n.
Proof.
  unfold format_04, decimal.
  generalize (4 - String.length (NilEmpty.string_of_uint (Nat.to_uint n))).
  intros k. induction k as [|k IH].
  - simpl. rewrite NilEmpty.usu. simpl. now rewrite DecimalNat.Unsigned.of_to.
  - simpl.
    destruct (NilEmpty.uint_of_string
                (zeros k ++ NilEmpty.string_of_uint (Nat.to_uint n))) as [d|];
      [|discriminate IH].
    simpl in IH |- *. exact IH.
Qed.

Lemma format_04_injective : Injective format_04.
Proof.
  intros n m H.
  pose proof (read_format_04 n) as Hn. rewrite H, read_format_04 in Hn.
  now injection Hn.
Qed.

Lemma cleaned_from_labels_NoDup col : forall seen off,
  NoDup (map fst (cleaned_from seen off col)).
Proof.
  induction col as [|x rest IH]; intros seen off.
  - constructor.
  - rewrite cleaned_from_cons.
    destruct (pd_isna x); [apply IH|].
    destruct (mem x seen); [apply IH|].
    simpl. constructor; [|apply IH].
    intros Hin. apply in_map_iff in Hin as ([i a] & E & Hin). simpl in E. subst i.
    apply cleaned_from_sound in Hin as (_ & _ & Hle & _). lia.
Qed.

(** X13. No two rows of a report carry the same Test Case ID, however
    many rows there are: past 9999 the identifier grows beyond four
    digits and stays distinct. *)
Theorem test_case_ids_distinct (w : World) (input_path output_path : string) :
  NoDup (map test_case_id (report w input_path output_path)).
Proof.
  pose proof (run_cases w input_path output_path) as Hcases.
  cbv zeta in Hcases. unfold report.
  destruct Hcases as [(Hr & _)|(col & c & rows & _ & Hrows & Hr & _)].
  - rewrite Hr. constructor.
  - rewrite Hr, (rows_of_ids _ _ _ _ _ Hrows).
    rewrite <- (map_map fst (fun i => "TC_" ++ format_04 (i + 1))).
    apply Injective_map_NoDup; [|apply cleaned_from_labels_NoDup].
    intros i j H. injection H as H. apply format_04_injective in H. lia.
Qed.

(** The cleaning keeps a column whole when nothing in it is missing or
    repeated. *)
Lemma cleaned_from_clean col : forall seen off,
  NoDup col ->
  (forall a, In a col -> pd_isna a = false /\ ~ In a seen) ->
  cleaned_from seen off col = combine (seq off (List.length col)) col.
Proof.
  induction col as [|x rest IH]; intros seen off Hnd Hok.
  - reflexivity.
  - rewrite cleaned_from_cons.
    destruct (Hok x (or_introl eq_refl)) as [Hna Hs].
    rewrite Hna. apply mem_not_In in Hs. rewrite Hs. simpl. f_equal.
    inversion Hnd as [|? ? Hx Hrest]; subst.
    apply IH; [assumption|].
    intros a Ha. destruct (Hok a (or_intror Ha)) as [Hna' Hs'].
    split; [assumption|]. intros [->|H]; [contradiction | now apply Hs'].
Qed.

Lemma combine_seq_snd (col : list Address) : forall off,
  map snd (combine (seq off (List.length col)) col) = col.
Proof. induction col as [|x rest IH]; intros off; simpl; [|rewrite IH]; reflexivity. Qed.

Lemma combine_seq_fst (col : list Address) : forall off,
  map fst (combine (seq off (List.length col)) col) = seq off (List.length col).
Proof. induction col as [|x rest IH]; intros off; simpl; [|rewrite IH]; reflexivity. Qed.

(** X14. When no cell of the input column is missing and none repeats
    another, nothing is dropped: the report has a row for every cell, in
    the order of the column, and the k-th row carries the identifier made
    of k, so the identifiers run TC_0001, TC_0002, ... without a gap. *)
Theorem clean_column_sequential_ids
    (w : World) (input_path output_path : string) (col : list Address) :
  load_input w input_path = LoadedTable (Some col) ->
  NoDup col ->
  (forall a, In a col -> pd_isna a = false) ->
  let rows := report w input_path output_path in
  map input_address rows = col /\
  map test_case_id rows =
    map (fun k => "TC_" ++ format_04 (k + 1)) (seq 0 (List.length col)).
Proof.
  intros Hload Hnd Hna rows. subst rows. unfold report.
  destruct (run_loaded w input_path output_path col Hload) as (c & rows & Hrows & Hrun).
  rewrite Hrun. simpl.
  rewrite (rows_of_addresses _ _ _ _ _ Hrows), (rows_of_ids _ _ _ _ _ Hrows).
  rewrite (cleaned_from_clean col [] 0 Hnd)
    by (intros a Ha; split; [now apply Hna | intros []]).
  split.
  - apply combine_seq_snd.
  - rewrite <- (map_map fst (fun k => "TC_" ++ format_04 (k + 1))).
    now rewrite combine_seq_fst.
Qed.

Lemma clean_column_sequential_ids_witness :
  let w := Samples.world_of Samples.geo_X [AStr "A"; AStr "B"; AStr "C"] in
  map test_case_id (report w "data/in.csv" "result/out.csv") =
    ["TC_0001"; "TC_0002"; "TC_0003"].
Proof.
  intros w.
  refine (proj2 (clean_column_sequential_ids w "data/in.csv" "result/out.csv"
                   [AStr "A"; AStr "B"; AStr "C"] eq_refl _ _)).
  - repeat constructor; simpl; intuition discriminate.
  - intros a [<-|[<-|[<-|[]]]]; reflexivity.
Defined.

(** * Further properties of the saving of the report *)

Lemma length_app_string (a b : string) :
  String.length (a ++ b) = String.length a + String.length b.
Proof. induction a as [|c a IH]; simpl; [|rewrite IH]; reflexivity. Qed.

Lemma substring_whole (b : string) : substring 0 (String.length b) b = b.
Proof. induction b as [|c b IH]; simpl; [|rewrite IH]; reflexivity. Qed.

Lemma substring_skip (a b : string) (m : nat) :
  substring (String.length a) m (a ++ b) = substring 0 m b.
Proof. induction a as [|c a IH]; simpl; [reflexivity | exact IH]. Qed.

Lemma substring_cut (s : string) : forall i,
  i <= String.length s ->
  s = substring 0 i s ++ substring i (String.length s - i) s.
Proof.
  induction s as [|c s IH]; intros i Hi.
  - simpl in Hi. replace i with 0 by lia. reflexivity.
  - destruct i as [|i].
    + simpl. now rewrite substring_whole.
    + simpl in Hi |- *. f_equal. apply IH. lia.
Qed.

(** [s.endswith(suffix)] holds exactly of the texts made of some stem
    followed by the suffix. *)
Lemma endswith_spec (s suffix : string) :
  endswith s suffix = true <-> exists stem, s = stem ++ suffix.
Proof.
  unfold endswith. split.
  - intros H. apply andb_true_iff in H as [Hk He].
    apply Nat.leb_le in Hk. apply String.eqb_eq in He.
    exists (substring 0 (String.length s - String.length suffix) s).
    pose proof (substring_cut s (String.length s - String.length suffix)) as Hcut.
    replace (String.length s - (String.length s - String.length suffix))
      with (String.length suffix) in Hcut by lia.
    rewrite He in Hcut. apply Hcut. lia.
  - intros (stem & ->). rewrite length_app_string. apply andb_true_iff. split.
    + apply Nat.leb_le. lia.
    + replace (String.length stem + String.length suffix - String.length suffix)
        with (String.length stem) by lia.
      rewrite substring_skip, substring_whole. apply String.eqb_refl.
Qed.

Lemma rfind_from_absent (c : ascii) (s : string) : forall i best,
  contains (String c "") s = false -> rfind_from c s i best = best.
Proof.
  induction s as [|ch s IH]; intros i best Hc.
  - reflexivity.
  - rewrite contains_char_cons in Hc. apply orb_false_iff in Hc as [E Hs].
    simpl. rewrite E. now apply IH.
Qed.

(** A path without a slash has no directory part. *)
Lemma dirname_no_slash (p : string) : contains "/" p = false -> dirname p = "".
Proof.
  intros H. unfold dirname, rfind. rewrite (rfind_from_absent _ _ _ _ H).
  simpl. now destruct p.
Qed.

(** X15. A run that loaded its table first makes sure of the directory of
    the output path and then saves the rows it built, all of them,
    according to the ending of the path, letter case counting: as an
    Excel file when it ends in .xlsx, as a CSV file when it ends in .csv,
    with the confirmation printed after the writing, and not at all
    otherwise.  When the directory cannot be made or the file cannot be
    written, the run ends with that exception, saves nothing and prints
    no confirmation; this is always so for an output path without a
    slash, whose directory is the empty name. *)
Theorem report_saved_by_extension
    (w : World) (input_path output_path : string) (col : list Address) :
  load_input w input_path = LoadedTable (Some col) ->
  let run := run_bulk_geocode w input_path output_path in
  let xlsx := exists stem, output_path = stem ++ ".xlsx" in
  let csv := exists stem, output_path = stem ++ ".csv" in
  (forall e, os_makedirs w (dirname output_path) = Some e ->
     raised run = Some e /\ saved run = None /\ printed run = [] /\
     ensured_dir run = None) /\
  (contains "/" output_path = false ->
     raised run =
       Some (mkExc "FileNotFoundError" "[Errno 2] No such file or directory: ''") /\
     saved run = None) /\
  (os_makedirs w (dirname output_path) = None ->
     ensured_dir run = Some (dirname output_path) /\
     (forall f, (f = Xlsx /\ xlsx) \/ (f = Csv /\ ~ xlsx /\ csv) ->
        (write_report w output_path f = None ->
           raised run = None /\
           saved run = Some (output_path, f, log_rows run) /\
           printed run =
             [match f with
              | Xlsx => "✅ Excel report saved: "
              | Csv => "✅ CSV report saved: "
              end ++ output_path]) /\
        (forall e, write_report w output_path f = Some e ->
           raised run = Some e /\ saved run = None /\ printed run = [])) /\
     (~ xlsx -> ~ csv ->
        raised run = None /\ saved run = None /\
        printed run = ["❌ Unsupported output format. Use .csv or .xlsx"])).
Proof.
  intros Hload run xlsx csv. subst run xlsx csv.
  destruct (run_loaded w input_path output_path col Hload) as (c & rows & _ & Hrun).
  rewrite Hrun. simpl.
  assert (Hns : contains "/" output_path = false ->
                os_makedirs w (dirname output_path) =
                Some (mkExc "FileNotFoundError" "[Errno 2] No such file or directory: ''"))
    by (intros H; unfold os_makedirs; now rewrite (dirname_no_slash _ H)).
  unfold save_report.
  destruct (os_makedirs w (dirname output_path)) as [e0|] eqn:Hm.
  - simpl. split; [intros e He; injection He as <-; repeat split|].
    split; [|intros H; discriminate H].
    intros H. apply Hns in H. split; [exact H | reflexivity].
  - split; [intros e He; discriminate He|].
    split; [intros H; apply Hns in H; discriminate H|]. intros _.
    destruct (endswith output_path ".xlsx") eqn:Hx.
    + assert (Hx' : exists stem, output_path = stem ++ ".xlsx")
        by (now apply endswith_spec).
      destruct (write_report w output_path Xlsx) as [e1|] eqn:Hw; simpl;
        (split; [reflexivity|]); (split; [|intros Hnx; exfalso; now apply Hnx]);
        (intros f [[-> _]|[_ [Hnx _]]]; [|exfalso; now apply Hnx]);
        rewrite Hw; (split; [intros H; try discriminate H; repeat split|]);
        intros e He; try discriminate He; injection He as <-; repeat split.
    + assert (Hx' : ~ exists stem, output_path = stem ++ ".xlsx")
        by (intros H; apply endswith_spec in H; congruence).
      destruct (endswith output_path ".csv") eqn:Hc.
      * assert (Hc' : exists stem, output_path = stem ++ ".csv")
          by (now apply endswith_spec).
        destruct (write_report w output_path Csv) as [e1|] eqn:Hw; simpl;
          (split; [reflexivity|]); (split; [|intros _ Hnc; exfalso; now apply Hnc]);
          (intros f [[_ H]|[-> _]]; [exfalso; now apply Hx'|]);
          rewrite Hw; (split; [intros H; try discriminate H; repeat split|]);
          intros e He; try discriminate He; injection He as <-; repeat split.
      * assert (Hc' : ~ exists stem, output_path = stem ++ ".csv")
          by (intros H; apply endswith_spec in H; congruence).
        simpl. split; [reflexivity|]. split.
        -- intros f [[_ H]|[_ [_ H]]]; exfalso; [now apply Hx' | now apply Hc'].
        -- intros _ _. repeat split.
Qed.

Lemma report_saved_by_extension_witness :
  let w := Samples.world_of Samples.geo_X [AStr "X"] in
  (exists rows, saved (run_bulk_geocode w "data/in.csv" "result/out.xlsx") =
                  Some ("result/out.xlsx", Xlsx, rows)) /\
  saved (run_bulk_geocode w "data/in.csv" "result/out.CSV") = None /\
  raised (run_bulk_geocode w "data/in.csv" "out.csv") =
    Some (mkExc "FileNotFoundError" "[Errno 2] No such file or directory: ''") /\
  raised (run_bulk_geocode (Samples.world_read_only Samples.geo_X [AStr "X"])
                           "data/in.csv" "result/out.csv") =
    Some (mkExc "PermissionError" "[Errno 13] Permission denied").
Proof.
  intros w. split; [|split; [|split]].
  - destruct (report_saved_by_extension w "data/in.csv" "result/out.xlsx"
                [AStr "X"] eq_refl) as (_ & _ & Hok).
    destruct (Hok eq_refl) as (_ & Hf & _).
    eexists. apply (Hf Xlsx); [|reflexivity].
    left. split; [reflexivity | now exists "result/out"].
  - destruct (report_saved_by_extension w "data/in.csv" "result/out.CSV"
                [AStr "X"] eq_refl) as (_ & _ & Hok).
    destruct (Hok eq_refl) as (_ & _ & Hn).
    apply Hn; intros Hs; apply endswith_spec in Hs; discriminate Hs.
  - destruct (report_saved_by_extension w "data/in.csv" "out.csv"
                [AStr "X"] eq_refl) as (_ & Hns & _).
    exact (proj1 (Hns eq_refl)).
  - destruct (report_saved_by_extension
                (Samples.world_read_only Samples.geo_X [AStr "X"])
                "data/in.csv" "result/out.csv" [AStr "X"] eq_refl) as (_ & _ & Hok).
    destruct (Hok eq_refl) as (_ & Hf & _).
    apply (Hf Csv); [|reflexivity].
    right. split; [reflexivity|]. split.
    + intros Hs. apply endswith_spec in Hs. discriminate Hs.
    + now exists "result/out".
Defined.

(** * Properties of the command line *)

Lemma split_sep_free (sep : ascii) (s : string) :
  contains (String sep "") s = false -> split sep s = [s].
Proof.
  induction s as [|ch s IH]; intros Hc.
  - reflexivity.
  - rewrite contains_char_cons in Hc. apply orb_false_iff in Hc as [E Hl].
    simpl. rewrite E, (IH Hl). reflexivity.
Qed.

Lemma split_app_sep (sep : ascii) (x rest : string) :
  contains (String sep "") x = false ->
  split sep (x ++ String sep rest) = x :: split sep rest.
Proof.
  induction x as [|ch x IH]; intros Hc.
  - simpl. now rewrite Ascii.eqb_refl.
  - rewrite contains_char_cons in Hc. apply orb_false_iff in Hc as [E Hl].
    simpl. rewrite E, (IH Hl). reflexivity.
Qed.

Lemma split_join (cs : list string) :
  cs <> [] -> Forall slash_free cs -> split "/" (join "/" cs) = cs.
Proof.
  induction cs as [|x [|y ys] IH]; intros Hne Hall.
  - contradiction.
  - simpl. apply split_sep_free. now inversion Hall.
  - inversion Hall as [|? ? Hx Hrest]; subst.
    change (join "/" (x :: y :: ys)) with (x ++ String "/" (join "/" (y :: ys))).
    rewrite split_app_sep by exact Hx. f_equal. apply IH; [discriminate | exact Hrest].
Qed.

Lemma append_assoc (a b c : string) : (a ++ b) ++ c = a ++ (b ++ c).
Proof. induction a as [|ch a IH]; simpl; [|rewrite IH]; reflexivity. Qed.

Lemma join_app (cs ds : list string) :
  cs <> [] -> ds <> [] ->
  join "/" (cs ++ ds) = join "/" cs ++ "/" ++ join "/" ds.
Proof.
  induction cs as [|x [|y ys] IH]; intros Hc Hd.
  - contradiction.
  - destruct ds as [|d ds]; [contradiction|]. reflexivity.
  - change (join "/" ((x :: y :: ys) ++ ds))
      with (x ++ String "/" (join "/" ((y :: ys) ++ ds))).
    rewrite IH by (discriminate || assumption).
    change (join "/" (x :: y :: ys)) with (x ++ String "/" (join "/" (y :: ys))).
    now rewrite append_assoc.
Qed.

Lemma plain_name_spec (c : string) :
  plain_name c = true <-> c <> "" /\ c <> "." /\ c <> ".." /\ slash_free c.
Proof.
  unfold plain_name, slash_free.
  rewrite !andb_true_iff, !negb_true_iff, !String.eqb_neq. tauto.
Qed.

Lemma plain_names_components (cs : list string) :
  Forall (fun c => plain_name c = true) cs ->
  Forall (fun c => c <> "" /\ slash_free c) cs.
Proof.
  apply Forall_impl. intros c H. apply plain_name_spec in H. tauto.
Qed.

Lemma prefix_char (a b : ascii) (rest : string) :
  String.prefix (String a "") (String b rest) = Ascii.eqb b a.
Proof.
  change (String.prefix (String a "") (String b rest))
    with (if ascii_dec a b then String.prefix "" rest else false).
  destruct (ascii_dec a b) as [->|Hne].
  - now rewrite Ascii.eqb_refl, prefix_empty.
  - symmetry. apply Ascii.eqb_neq. congruence.
Qed.

Lemma no_leading_slash (c rest : string) :
  c <> "" -> slash_free c -> String.prefix "/" (c ++ rest) = false.
Proof.
  intros Hne Hs. destruct c as [|ch c]; [contradiction|].
  unfold slash_free in Hs. rewrite contains_char_cons in Hs.
  apply orb_false_iff in Hs as [E _].
  change (String ch c ++ rest) with (String ch (c ++ rest)).
  now rewrite prefix_char.
Qed.

Lemma append_nil_r (a : string) : a ++ "" = a.
Proof. induction a as [|ch a IH]; simpl; [|rewrite IH]; reflexivity. Qed.

Lemma join_no_leading_slash (cs : list string) :
  Forall (fun c => c <> "" /\ slash_free c) cs ->
  String.prefix "/" (join "/" cs) = false.
Proof.
  intros Hall. destruct cs as [|x [|y ys]].
  - reflexivity.
  - inversion Hall as [|? ? [Hne Hs] _]; subst.
    change (join "/" [x]) with x.
    rewrite <- (append_nil_r x). now apply no_leading_slash.
  - inversion Hall as [|? ? [Hne Hs] _]; subst.
    change (join "/" (x :: y :: ys)) with (x ++ String "/" (join "/" (y :: ys))).
    now apply no_leading_slash.
Qed.

Lemma split_ends_sep (sep : ascii) (stem : string) :
  exists front, front <> [] /\
    split sep (stem ++ String sep "") = (front ++ [""])%list.
Proof.
  induction stem as [|ch stem (front & Hne & IH)].
  - exists [""]. split; [discriminate|]. simpl. now rewrite Ascii.eqb_refl.
  - simpl. rewrite IH. destruct (Ascii.eqb ch sep).
    + exists ("" :: front). split; [discriminate | reflexivity].
    + destruct front as [|f fs]; [contradiction|].
      exists (String ch f :: fs). split; [discriminate | reflexivity].
Qed.

Lemma last_In (cs : list string) (d : string) : cs <> [] -> In (last cs d) cs.
Proof.
  induction cs as [|x [|y ys] IH]; intros Hne.
  - contradiction.
  - now left.
  - right. apply IH. discriminate.
Qed.

Lemma split_absolute (cs : list string) :
  cs <> [] -> Forall (fun c => c <> "" /\ slash_free c) cs ->
  split "/" (absolute cs) = "" :: cs.
Proof.
  intros Hne Hall. unfold absolute. simpl. f_equal.
  apply split_join; [exact Hne|]. revert Hall. apply Forall_impl. tauto.
Qed.

Lemma absolute_not_ends_slash (cs : list string) :
  cs <> [] -> Forall (fun c => c <> "" /\ slash_free c) cs ->
  endswith (absolute cs) "/" = false.
Proof.
  intros Hne Hall. destruct (endswith (absolute cs) "/") eqn:E; [|reflexivity].
  exfalso. apply endswith_spec in E as (stem & Hs).
  apply (f_equal (split "/")) in Hs. rewrite split_absolute in Hs by assumption.
  destruct (split_ends_sep "/" stem) as (front & _ & Hf). rewrite Hf in Hs.
  apply (f_equal (fun l => last l "x")) in Hs. rewrite last_last in Hs.
  assert (Hl : last ("" :: cs) "x" = last cs "x") by (destruct cs; [contradiction | reflexivity]).
  rewrite Hl in Hs.
  pose proof (last_In cs "x" Hne) as Hin. rewrite Hs in Hin.
  rewrite Forall_forall in Hall. destruct (Hall _ Hin) as [H _]. now apply H.
Qed.

Lemma normpath_rooted (r : string) (cs : list string) :
  String.prefix "/" r = false ->
  split "/" (String "/" r) = "" :: cs ->
  normpath (String "/" r) = "/" ++ join "/" (fold_left (normpath_step 1) cs []).
Proof.
  intros Hr Hs. unfold normpath. rewrite Hs.
  change (String.eqb (String "/" r) "") with false.
  rewrite prefix_char.
  change (String.prefix "//" (String "/" r)) with (String.prefix (String "/" "/") (String "/" r)).
  rewrite prefix_cons, Hr.
  reflexivity.
Qed.

(** Normalising an absolute path runs the loop over its components. *)
Lemma normpath_absolute (cs : list string) :
  Forall (fun c => c <> "" /\ slash_free c) cs ->
  normpath (absolute cs) = absolute (fold_left (normpath_step 1) cs []).
Proof.
  intros Hall. destruct cs as [|x xs]; [reflexivity|].
  assert (Hne : x :: xs <> []) by discriminate.
  pose proof (split_absolute _ Hne Hall) as Hs.
  pose proof (join_no_leading_slash _ Hall) as Hp.
  unfold absolute in *.
  remember (join "/" (x :: xs)) as r eqn:Er.
  change ("/" ++ r) with (String "/" r) in *.
  now apply normpath_rooted.
Qed.

Lemma normpath_step_plain (k : nat) (acc : list string) (c : string) :
  plain_name c = true -> normpath_step k acc c = (acc ++ [c])%list.
Proof.
  intros H. apply plain_name_spec in H as (H0 & H1 & H2 & _).
  apply String.eqb_neq in H0, H1, H2.
  unfold normpath_step. now rewrite H0, H1, H2.
Qed.

Lemma fold_plain (k : nat) (cs : list string) : forall acc,
  Forall (fun c => plain_name c = true) cs ->
  fold_left (normpath_step k) cs acc = (acc ++ cs)%list.
Proof.
  induction cs as [|c cs IH]; intros acc Hall.
  - now rewrite app_nil_r.
  - inversion Hall as [|? ? Hc Hcs]; subst. simpl.
    rewrite (normpath_step_plain _ _ _ Hc), (IH _ Hcs), <- app_assoc. reflexivity.
Qed.

(** Under a root, [..] takes the last plain name away. *)
Lemma normpath_step_dotdot (acc : list string) (c : string) :
  plain_name c = true -> normpath_step 1 (acc ++ [c]) ".." = acc.
Proof.
  intros H. apply plain_name_spec in H as (_ & _ & H2 & _).
  apply String.eqb_neq in H2.
  unfold normpath_step. rewrite last_last, H2, removelast_last.
  destruct acc; reflexivity.
Qed.

(** A relative path is resolved against the working directory, one
    component at a time. *)
Lemma abspath_relative (cwd_comps rs : list string) :
  Forall (fun c => plain_name c = true) cwd_comps ->
  rs <> [] -> Forall (fun c => c <> "" /\ slash_free c) rs ->
  abspath (absolute cwd_comps) (join "/" rs) =
    absolute (fold_left (normpath_step 1) rs cwd_comps).
Proof.
  intros Hcwd Hne Hrs. unfold abspath, path_join.
  rewrite (join_no_leading_slash _ Hrs).
  change (String.eqb (absolute cwd_comps) "") with false. simpl orb.
  destruct cwd_comps as [|d ds].
  - change (endswith (absolute []) "/") with true. cbv iota.
    change (absolute [] ++ join "/" rs) with (absolute rs).
    now apply normpath_absolute.
  - assert (Hd : d :: ds <> []) by discriminate.
    rewrite (absolute_not_ends_slash _ Hd (plain_names_components _ Hcwd)).
    replace (absolute (d :: ds) ++ "/" ++ join "/" rs)
      with (absolute ((d :: ds) ++ rs)).
    + rewrite normpath_absolute.
      * now rewrite fold_left_app, (fold_plain 1 (d :: ds) [] Hcwd).
      * apply Forall_app. split; [now apply plain_names_components | exact Hrs].
    + unfold absolute. rewrite (join_app _ _ Hd Hne). now rewrite append_assoc.
Qed.

Lemma path_join_relative (dir arg : string) :
  plain_name dir = true -> String.prefix "/" arg = false ->
  path_join dir arg = dir ++ "/" ++ arg.
Proof.
  intros Hd Ha. unfold path_join. rewrite Ha.
  destruct (String.eqb dir "" || endswith dir "/") eqn:E; [|reflexivity].
  exfalso. apply plain_name_spec in Hd as (H0 & _ & _ & Hs).
  apply orb_true_iff in E as [E|E].
  - now apply String.eqb_eq in E.
  - apply endswith_spec in E as (stem & ->).
    unfold slash_free in Hs. clear H0.
    induction stem as [|ch stem IH].
    + discriminate Hs.
    + change (String ch stem ++ "/") with (String ch (stem ++ "/")) in Hs.
      rewrite contains_char_cons in Hs. apply orb_false_iff in Hs as [_ Hs]. auto.
Qed.

Lemma plain_name_no_leading_slash (c : string) :
  plain_name c = true -> String.prefix "/" c = false.
Proof.
  intros H. apply plain_name_spec in H as (H0 & _ & _ & Hs).
  rewrite <- (append_nil_r c). now apply no_leading_slash.
Qed.

(** A plain file name is looked up in the given folder of the working
    directory. *)
Lemma abspath_in_folder (cwd_comps : list string) (dir name : string) :
  Forall (fun c => plain_name c = true) cwd_comps ->
  plain_name dir = true -> plain_name name = true ->
  abspath (absolute cwd_comps) (path_join dir name) =
    absolute (cwd_comps ++ [dir; name]).
Proof.
  intros Hcwd Hd Hn.
  rewrite (path_join_relative _ _ Hd (plain_name_no_leading_slash _ Hn)).
  change (dir ++ "/" ++ name) with (join "/" [dir; name]).
  rewrite abspath_relative; try assumption; try discriminate.
  - now rewrite fold_plain by (repeat constructor; assumption).
  - apply plain_names_components. repeat constructor; assumption.
Qed.

(** X16. Started in a working directory with two plain file names, the
    script prints the two paths it made and then runs on them: the input
    is looked up as data/<name> and the report written as result/<name>,
    both under the working directory. *)
Theorem main_plain_names
    (w : World) (cwd_comps : list string) (name_in name_out : string) :
  Forall (fun c => plain_name c = true) cwd_comps ->
  plain_name name_in = true -> plain_name name_out = true ->
  let input_path := absolute (cwd_comps ++ ["data"; name_in]) in
  let output_path := absolute (cwd_comps ++ ["result"; name_out]) in
  let run := run_bulk_geocode w input_path output_path in
  main w (absolute cwd_comps) name_in name_out =
    (("Input Path: " ++ input_path) :: ("Output Path: " ++ output_path) :: printed run,
     run).
Proof.
  intros Hcwd Hin Hout. unfold main.
  rewrite (abspath_in_folder _ "data" _ Hcwd eq_refl Hin).
  rewrite (abspath_in_folder _ "result" _ Hcwd eq_refl Hout).
  reflexivity.
Qed.

Lemma main_plain_names_witness :
  fst (main (Samples.world_of Samples.geo_X [AStr "X"])
            (absolute ["home"; "u"]) "in.csv" "out.csv") =
    ["Input Path: /home/u/data/in.csv"; "Output Path: /home/u/result/out.csv";
     "❌ Error: File not found — /home/u/data/in.csv"].
Proof.
  assert (Hcwd : Forall (fun c => plain_name c = true) ["home"; "u"])
    by (repeat constructor).
  rewrite (main_plain_names (Samples.world_of Samples.geo_X [AStr "X"])
             ["home"; "u"] "in.csv" "out.csv" Hcwd eq_refl eq_refl).
  reflexivity.
Defined.

(** An absolute argument replaces the folder and the working directory. *)
Lemma abspath_absolute (cwd dir : string) (cs : list string) :
  Forall (fun c => plain_name c = true) cs ->
  abspath cwd (path_join dir (absolute cs)) = absolute cs.
Proof.
  intros Hcs.
  assert (Hp : String.prefix "/" (absolute cs) = true)
    by (unfold absolute; change ("/" ++ join "/" cs) with (String "/" (join "/" cs));
        now rewrite prefix_char).
  unfold abspath, path_join. rewrite Hp, Hp.
  rewrite normpath_absolute by now apply plain_names_components.
  now rewrite fold_plain.
Qed.

Lemma snd_main (w : World) (cwd arg_input arg_output : string) :
  snd (main w cwd arg_input arg_output) =
    run_bulk_geocode w (abspath cwd (path_join "data" arg_input))
                       (abspath cwd (path_join "result" arg_output)).
Proof. reflexivity. Qed.

(** X17. The folder data/ does not confine the input: given an absolute
    path, the script runs on that very path, and given ../<name> it runs
    on <name> in the working directory itself, beside data/. *)
Theorem main_input_not_confined
    (w : World) (cwd_comps : list string) (name_out : string) :
  Forall (fun c => plain_name c = true) cwd_comps ->
  plain_name name_out = true ->
  let output_path := absolute (cwd_comps ++ ["result"; name_out]) in
  (forall cs, Forall (fun c => plain_name c = true) cs ->
     snd (main w (absolute cwd_comps) (absolute cs) name_out) =
       run_bulk_geocode w (absolute cs) output_path) /\
  (forall name, plain_name name = true ->
     snd (main w (absolute cwd_comps) ("../" ++ name) name_out) =
       run_bulk_geocode w (absolute (cwd_comps ++ [name])) output_path).
Proof.
  intros Hcwd Hout output_path. subst output_path. split.
  - intros cs Hcs. rewrite snd_main.
    rewrite (abspath_in_folder _ "result" _ Hcwd eq_refl Hout).
    f_equal. now apply abspath_absolute.
  - intros name Hn. rewrite snd_main.
    rewrite (abspath_in_folder _ "result" _ Hcwd eq_refl Hout).
    f_equal.
    assert (Hrel : String.prefix "/" ("../" ++ name) = false)
      by (change ("../" ++ name) with (String "." ("./" ++ name));
          now rewrite prefix_char).
    rewrite (path_join_relative "data" _ eq_refl Hrel).
    change ("data" ++ "/" ++ "../" ++ name) with (join "/" ["data"; ".."; name]).
    rewrite abspath_relative; try assumption; try discriminate.
    + simpl fold_left.
      rewrite (normpath_step_plain 1 cwd_comps "data" eq_refl).
      rewrite (normpath_step_dotdot cwd_comps "data" eq_refl).
      now rewrite normpath_step_plain.
    + apply plain_name_spec in Hn as (H0 & _ & _ & Hs).
      repeat constructor; try discriminate; assumption.
Qed.

Lemma main_input_not_confined_witness :
  let w := Samples.world_of Samples.geo_X [AStr "X"] in
  snd (main w (absolute ["home"; "u"]) "/etc/in.csv" "out.csv") =
    run_bulk_geocode w "/etc/in.csv" "/home/u/result/out.csv" /\
  snd (main w (absolute ["home"; "u"]) "../in.csv" "out.csv") =
    run_bulk_geocode w "/home/u/in.csv" "/home/u/result/out.csv".
Proof.
  intros w.
  assert (Hcwd : Forall (fun c => plain_name c = true) ["home"; "u"])
    by (repeat constructor).
  destruct (main_input_not_confined w ["home"; "u"] "out.csv" Hcwd eq_refl)
    as [Habs Hup].
  split.
  - assert (Hcs : Forall (fun c => plain_name c = true) ["etc"; "in.csv"])
      by (repeat constructor).
    exact (Habs ["etc"; "in.csv"] Hcs).
  - exact (Hup "in.csv" eq_refl).
Defined.

(** X18. The output path plays no part before the saving: the rows
    built and the addresses the geocoder is asked are the same for any two
    output paths, and a run whose input does not load into a table with
    an address column is the same run whatever the output path. *)
Theorem output_path_only_affects_saving
    (w : World) (input_path out1 out2 : string) :
  log_rows (run_bulk_geocode w input_path out1) =
    log_rows (run_bulk_geocode w input_path out2) /\
  geocoder_calls (run_bulk_geocode w input_path out1) =
    geocoder_calls (run_bulk_geocode w input_path out2) /\
  ((forall col, load_input w input_path <> LoadedTable (Some col)) ->
   run_bulk_geocode w input_path out1 = run_bulk_geocode w input_path out2).
Proof.
  unfold run_bulk_geocode.
  destruct (load_input w input_path) as [line|e|[col|]];
    try (split; [reflexivity|]; split; reflexivity).
  rewrite clean_cleaned_from.
  destruct (iter_rows w 0 (cleaned_from [] 0 col) []) as [[c rows] [e|]];
    (split; [reflexivity|]; split; [reflexivity|]);
    intros H; now contradiction (H col).
Qed.

Lemma output_path_only_affects_saving_witness :
  run_bulk_geocode (Samples.world_of Samples.geo_X [AStr "X"]) "data/none.csv" "a.csv" =
  run_bulk_geocode (Samples.world_of Samples.geo_X [AStr "X"]) "data/none.csv" "b/c.xlsx".
Proof.
  apply (output_path_only_affects_saving
           (Samples.world_of Samples.geo_X [AStr "X"]) "data/none.csv" "a.csv" "b/c.xlsx").
  intros col H. discriminate H.
Defined.

(** * Whole-run failures *)

Lemma cleaned_addresses (col : list Address) (a : Address) :
  In a (map snd (cleaned_from [] 0 col)) <-> In a col /\ pd_isna a = false.
Proof.
  split.
  - intros Hin. apply in_map_iff in Hin as ([i a'] & E & Hin). simpl in E. subst a'.
    apply cleaned_from_sound in Hin as (Hna & _ & _ & Hn & _).
    split; [eapply nth_error_In; exact Hn | exact Hna].
  - intros [Hin Hna]. apply cleaned_from_complete; auto.
Qed.

(** C8 (counterexample). A run whose output path ends in .txt ends with
    the line about the unsupported output format and saves nothing, yet
    by then it has built its row and asked the geocoder. *)
Lemma unsupported_output_found_after_loop :
  let w := Samples.world_of Samples.geo_X [AStr "X"] in
  let run := run_bulk_geocode w "data/in.csv" "result/out.txt" in
  printed run = ["❌ Unsupported output format. Use .csv or .xlsx"] /\
  saved run = None /\
  geocoder_calls run = [AStr "X"] /\
  ~ (log_rows run = [] /\ geocoder_calls run = []).
Proof.
  split; [reflexivity|]. split; [reflexivity|]. split; [reflexivity|].
  intros [H _]. discriminate H.
Qed.

(** C8 (amended). The failures on the side of the input (no such file, an
    extension that is missing or none of .csv, .xlsx and .xls) end the
    run before the loop: no row is built, the geocoder is never called
    and no report is saved.  An unsupported ending of the output path is
    found out only after the loop, when every row has been built and the
    geocoder asked for every usable address; such a run saves no report,
    and so emits no row either. *)
Theorem whole_run_failures (w : World) (input_path output_path : string) :
  let run := run_bulk_geocode w input_path output_path in
  (path_exists w input_path = false \/
   supported_input_ext (file_ext input_path) = false ->
     log_rows run = [] /\ geocoder_calls run = [] /\ saved run = None /\
     (path_exists w input_path = false ->
        raised run = None /\
        printed run = ["❌ Error: File not found — " ++ input_path]) /\
     (path_exists w input_path = true ->
        printed run = [] /\ exists msg, raised run = Some (ValueError msg))) /\
  (forall col,
     load_input w input_path = LoadedTable (Some col) ->
     endswith output_path ".xlsx" = false ->
     endswith output_path ".csv" = false ->
     saved run = None /\
     (forall a, In a (map input_address (log_rows run)) <->
                In a col /\ pd_isna a = false) /\
     geocoder_calls run = filter usable (map input_address (log_rows run)) /\
     (os_makedirs w (dirname output_path) = None ->
        raised run = None /\
        printed run = ["❌ Unsupported output format. Use .csv or .xlsx"])).
Proof.
  intros run. subst run. split.
  - exact (input_failure_produces_no_rows w input_path output_path).
  - intros col Hload Hx Hc.
    destruct (run_loaded w input_path output_path col Hload) as (c & rows & Hrows & Hrun).
    rewrite Hrun. simpl.
    rewrite (rows_of_addresses _ _ _ _ _ Hrows).
    pose proof (save_report_cases w output_path rows) as Hcases. cbv zeta in Hcases.
    split; [|split; [|split]].
    + destruct Hcases as [(e & _ & ->)
                         |(_ & [(Hx' & _)|[(_ & Hc' & _)|(_ & _ & ->)]])];
        try reflexivity; congruence.
    + intros a. apply cleaned_addresses.
    + now apply rows_of_calls in Hrows.
    + intros Hm.
      destruct Hcases as [(e & He & _)
                         |(_ & [(Hx' & _)|[(_ & Hc' & _)|(_ & _ & ->)]])];
        try congruence. split; reflexivity.
Qed.

Lemma whole_run_failures_witness :
  (let run := run_bulk_geocode (Samples.world_any Samples.geo_X [AStr "X"])
                               "data/in.txt" "result/out.csv" in
   log_rows run = [] /\ geocoder_calls run = [] /\
   exists msg, raised run = Some (ValueError msg)) /\
  (let run := run_bulk_geocode (Samples.world_of Samples.geo_X [AStr "X"])
                               "data/in.csv" "result/out.txt" in
   saved run = None /\ geocoder_calls run = [AStr "X"] /\ raised run = None).
Proof.
  split.
  - destruct (whole_run_failures (Samples.world_any Samples.geo_X [AStr "X"])
                "data/in.txt" "result/out.csv") as [Hin _].
    destruct (Hin (or_intror eq_refl)) as (Hr & Hc & _ & _ & Hv).
    split; [exact Hr|]. split; [exact Hc|]. exact (proj2 (Hv eq_refl)).
  - destruct (whole_run_failures (Samples.world_of Samples.geo_X [AStr "X"])
                "data/in.csv" "result/out.txt") as [_ Hout].
    destruct (Hout [AStr "X"] eq_refl eq_refl eq_refl) as (Hs & _ & Hc & Hr).
    split; [exact Hs|]. split; [exact Hc|]. exact (proj1 (Hr eq_refl)).
Defined.

